(** * WaniKani review helper: a shallow embedding of [wanikani.py] and [main.py]

    The development follows the two source files.

    - Module [Py] collects the few Python primitives the program relies on:
      truthiness of strings, [str] of an integer, [str.lower], the stable
      [sorted(..., key=...)] and [range] with a step.
    - Module [Wanikani] embeds [wanikani.py]: the paginated fetcher, the
      batching helper, the two identifier resolvers, the subject lookup and
      [get_vocab], over an explicit model of the remote service.
    - Module [Main] embeds [main.py]: the start-up code around [get_vocab] and
      the generator [gen_chunks] that splits the model stream into thoughts
      and answer text.

    Strings are Rocq strings; one character stands for one code point below
    256.  Integers are [Z]. *)

From Stdlib Require Import List String Ascii ZArith Lia Bool Arith PeanoNat.
From Stdlib Require Import DecimalString Sorted Permutation.
Import ListNotations.

Local Open Scope string_scope.
Local Open Scope list_scope.

(* ================================================================== *)
(** * Python primitives *)
(* ================================================================== *)

Module Py.

(** [bool(s)] for a [str]: only the empty string is falsy. *)
Definition truthy (s : string) : bool := negb (s =? "")%string.

(** [bool(x)] for a value that is either [None] or a [str]. *)
Definition truthy_opt (o : option string) : bool :=
  match o with
  | None => false
  | Some s => truthy s
  end.

(** [a or b] where [a] is a [str] and [b] is [None] or a [str]. *)
Definition str_or (a : string) (b : option string) : option string :=
  if truthy a then Some a else b.

(** [str(n)] for an [int]. *)
Definition str_int (n : Z) : string := NilZero.string_of_int (Z.to_int n).

(** [sep.join(parts)]. *)
Definition join (sep : string) (parts : list string) : string :=
  String.concat sep parts.

(** [str.lower] on code points below 256: the ASCII capitals and the Latin-1
    capitals U+00C0..U+00DE (without the multiplication sign U+00D7) move
    up by 32; every other character is kept. *)
Definition lower_char (c : ascii) : ascii :=
  let n := nat_of_ascii c in
  if (((65 <=? n) && (n <=? 90))
      || ((192 <=? n) && (n <=? 222) && negb (n =? 215)))%nat
  then ascii_of_nat (n + 32)
  else c.

Fixpoint lower (s : string) : string :=
  match s with
  | EmptyString => EmptyString
  | String c rest => String (lower_char c) (lower rest)
  end.

(** [sorted(l, key=key)].  Python's sort is stable and compares keys with
    [<] only; a stable sort has one possible result, which the insertion
    below computes: an element moves right only past elements whose key is
    strictly smaller. *)
Section Sorted.
Context {A : Type} (key : A -> string).

Fixpoint insert_by (x : A) (l : list A) : list A :=
  match l with
  | [] => [x]
  | y :: rest =>
      if (key y <? key x)%string then y :: insert_by x rest
      else x :: y :: rest
  end.

Definition sorted (l : list A) : list A := fold_right insert_by [] l.

(** The order the result of [sorted] is in: keys do not decrease. *)
Definition key_le (a b : A) : Prop := (key a <=? key b)%string = true.
End Sorted.

(** [range(start, stop, step)] for [step > 0], with [fuel] bounding the
    number of elements produced. *)
Fixpoint range_from (fuel start stop step : nat) : list nat :=
  match fuel with
  | O => []
  | S fuel' =>
      if (start <? stop)%nat then start :: range_from fuel' (start + step) stop step
      else []
  end.

(** [range(0, stop, step)]: for [step >= 1] at most [stop] elements exist. *)
Definition range0 (stop step : nat) : list nat := range_from stop 0 stop step.

(** [seq[i : j]] for [0 <= i <= j]. *)
Definition slice {A : Type} (l : list A) (i j : nat) : list A :=
  firstn (j - i) (skipn i l).

End Py.

(* ================================================================== *)
(** * wanikani.py *)
(* ================================================================== *)

Module Wanikani.

Definition WK_API_URL : string := "https://api.wanikani.com/v2".
Definition CHUNK : nat := 1000.

(** ** Exceptions *)

(** The exception classes that can leave the functions of the module. *)
Inductive exn_class : Type :=
| ClsReviewEndpointDown   (* class ReviewEndpointDown(Exception) *)
| ClsException            (* the built-in Exception itself *)
| ClsHTTPError            (* requests.exceptions.HTTPError *)
| ClsTimeout              (* requests.exceptions.Timeout *)
| ClsConnectionError      (* requests.exceptions.ConnectionError *)
| ClsJSONDecodeError      (* requests.exceptions.JSONDecodeError *)
| ClsKeyError             (* KeyError *)
| ClsSystemExit.          (* SystemExit, raised by sys.exit *)

Inductive exn : Type :=
| ReviewEndpointDown (text : string)
| PlainException (message : string)
| HTTPError (status : Z)
| Timeout
| ConnectionError
| JSONDecodeError
| KeyError (key : string)
| SystemExit (code : Z).

Definition class_of (e : exn) : exn_class :=
  match e with
  | ReviewEndpointDown _ => ClsReviewEndpointDown
  | PlainException _ => ClsException
  | HTTPError _ => ClsHTTPError
  | Timeout => ClsTimeout
  | ConnectionError => ClsConnectionError
  | JSONDecodeError => ClsJSONDecodeError
  | KeyError _ => ClsKeyError
  | SystemExit _ => ClsSystemExit
  end.

(** [issubclass(c, Exception)]: [SystemExit] derives from [BaseException]
    only. *)
Definition is_Exception (c : exn_class) : bool :=
  match c with
  | ClsSystemExit => false
  | _ => true
  end.

(** [issubclass(c, requests.exceptions.RequestException)]. *)
Definition is_RequestException (c : exn_class) : bool :=
  match c with
  | ClsHTTPError | ClsTimeout | ClsConnectionError | ClsJSONDecodeError => true
  | _ => false
  end.

Definition exn_class_eqb (a b : exn_class) : bool :=
  match a, b with
  | ClsReviewEndpointDown, ClsReviewEndpointDown
  | ClsException, ClsException
  | ClsHTTPError, ClsHTTPError
  | ClsTimeout, ClsTimeout
  | ClsConnectionError, ClsConnectionError
  | ClsJSONDecodeError, ClsJSONDecodeError
  | ClsKeyError, ClsKeyError
  | ClsSystemExit, ClsSystemExit => true
  | _, _ => false
  end.

(** ** The remote service *)

(** A record of a collection: the fields the program reads, each of which
    may be missing from the JSON object. *)
Record item : Type := mk_item {
  item_object : option string;      (* rec["object"] *)
  item_slug : option string;        (* rec["data"]["slug"] *)
  item_subject_id : option Z        (* rec["data"]["subject_id"] *)
}.

(** The envelope of a page: [payload["data"]] and
    [payload["pages"]["next_url"]] ([None] for JSON null). *)
Record payload : Type := mk_payload {
  page_data : list item;
  page_next_url : option string
}.

(** What [requests.get] hands back: [resp.status_code], [resp.text] and the
    decoded body ([None] when [resp.json()] cannot decode it). *)
Record response : Type := mk_response {
  resp_status : Z;
  resp_text : string;
  resp_json : option payload
}.

Inductive get_result : Type :=
| Responds (r : response)
| TimesOut                 (* no answer within [timeout=30] *)
| ConnectionFails.

Definition headers : Type := list (string * string).

(** ** Results and the effect monad *)

Inductive result (A : Type) : Type :=
| Ret (a : A)
| Raise (e : exn)
| Diverge.                 (* the loop bound of the model was reached *)
Arguments Ret {A} a.
Arguments Raise {A} e.
Arguments Diverge {A}.

(** Observable steps, in the order in which they happen. *)
Inductive event : Type :=
| EvGet (url : string) (h : headers)    (* requests.get(url, headers=h, timeout=30) *)
| EvYield (it : item)                   (* the generator hands out a record *)
| EvStderr (line : string).             (* print(line, file=sys.stderr) *)

Section Service.

(** The state of the remote service and the way it answers a GET. *)
Variable W : Type.
Variable requests_get : W -> string -> headers -> get_result * W.

(** [iso_now_minus]: the clock and the calendar arithmetic of [datetime]. *)
Variable iso_now_minus : Z -> string.

(** Iteration order of a Python set holding the given elements: a [set] is
    modelled by the list of the values put into it, and iterating it visits
    each distinct value once, in an order chosen by the interpreter. *)
Variable int_set_iter : list Z -> list Z.
Variable str_set_iter : list string -> list string.

Record run (A : Type) : Type := mk_run {
  outcome : result A;
  trace : list event;
  final : W
}.
Arguments mk_run {A} outcome trace final.
Arguments outcome {A} r.
Arguments trace {A} r.
Arguments final {A} r.

Definition M (A : Type) : Type := W -> run A.

Definition ret {A} (a : A) : M A := fun w => mk_run (Ret a) [] w.
Definition raise {A} (e : exn) : M A := fun w => mk_run (Raise e) [] w.
Definition diverge {A} : M A := fun w => mk_run Diverge [] w.
Definition emit (ev : event) : M unit := fun w => mk_run (Ret tt) [ev] w.
Definition lift {A} (r : result A) : M A := fun w => mk_run r [] w.

Definition bind {A B} (m : M A) (f : A -> M B) : M B :=
  fun w =>
    let r := m w in
    match outcome r with
    | Ret a =>
        let r' := f a (final r) in
        mk_run (outcome r') (trace r ++ trace r') (final r')
    | Raise e => mk_run (Raise e) (trace r) (final r)
    | Diverge => mk_run Diverge (trace r) (final r)
    end.

(** [try: m except ReviewEndpointDown as e: h e] *)
Definition try_except_ReviewEndpointDown {A}
    (m : M A) (h : string -> M A) : M A :=
  fun w =>
    let r := m w in
    match outcome r with
    | Raise (ReviewEndpointDown text) =>
        let r' := h text (final r) in
        mk_run (outcome r') (trace r ++ trace r') (final r')
    | _ => r
    end.

Notation "x <- m ;; k" := (bind m (fun x => k))
  (at level 61, m at next level, right associativity).
Notation "m ;;; k" := (bind m (fun _ => k))
  (at level 61, right associativity).

(** [requests.get(url, headers=headers, timeout=30)] *)
Definition get (url : string) (h : headers) : M response :=
  fun w =>
    let (res, w') := requests_get w url h in
    match res with
    | Responds r => mk_run (Ret r) [EvGet url h] w'
    | TimesOut => mk_run (Raise Timeout) [EvGet url h] w'
    | ConnectionFails => mk_run (Raise ConnectionError) [EvGet url h] w'
    end.

(** [resp.raise_for_status()] *)
Definition raise_for_status (r : response) : M unit :=
  if ((400 <=? resp_status r) && (resp_status r <? 600))%Z
  then raise (HTTPError (resp_status r))
  else ret tt.

(** [resp.json()] *)
Definition json (r : response) : M payload :=
  match resp_json r with
  | Some p => ret p
  | None => raise JSONDecodeError
  end.

(** ** fetch_paginated *)

(** [yield from payload["data"]] seen from a [for] loop over the generator:
    each record is handed out and the loop body runs on it before the
    generator is resumed. *)
Fixpoint yield_from {S : Type} (body : S -> item -> result S)
    (records : list item) (s : S) : M S :=
  match records with
  | [] => ret s
  | it :: rest =>
      emit (EvYield it) ;;;
      s' <- lift (body s it) ;;
      yield_from body rest s'
  end.

(** [for rec in fetch_paginated(url, headers): s = body(s, rec)].  The loop
    variable [url] starts as a string and is then whatever [next_url]
    holds.  [fuel] bounds the number of evaluations of the [while] test. *)
Fixpoint fetch_paginated {S : Type} (fuel : nat) (url : option string)
    (h : headers) (body : S -> item -> result S) (s : S) : M S :=
  match fuel with
  | O => diverge
  | Datatypes.S fuel' =>
      match url with
      | Some u =>
          if Py.truthy u then
            resp <- get u h ;;
            if (500 <=? resp_status resp)%Z
            then raise (ReviewEndpointDown (resp_text resp))
            else
              raise_for_status resp ;;;
              payload <- json resp ;;
              s' <- yield_from body (page_data payload) s ;;
              fetch_paginated fuel' (page_next_url payload) h body s'
          else ret s
      | None => ret s
      end
  end.

(** The generator consumed by a loop that only collects what it gets. *)
Definition collect (acc : list item) (it : item) : result (list item) :=
  Ret (acc ++ [it]).

Definition fetch_all (fuel : nat) (url : string) (h : headers)
    : M (list item) :=
  fetch_paginated fuel (Some url) h collect [].

(** The records handed out in a trace. *)
Fixpoint yielded (t : list event) : list item :=
  match t with
  | [] => []
  | EvYield it :: rest => it :: yielded rest
  | _ :: rest => yielded rest
  end.

(** ** chunked *)

(** [for i in range(0, len(seq), size): yield seq[i : i + size]] *)
Definition chunked {A : Type} (seq : list A) (size : nat) : list (list A) :=
  map (fun i => Py.slice seq i (i + size)) (Py.range0 (List.length seq) size).

(** ** gather_vocab_subjects *)

(** Loop body: [if subj["object"] == "vocabulary":
    vocab.append(subj["data"]["slug"])]. *)
Definition keep_vocabulary (vocab : list string) (subj : item)
    : result (list string) :=
  match item_object subj with
  | None => Raise (KeyError "object")
  | Some kind =>
      if (kind =? "vocabulary")%string then
        match item_slug subj with
        | None => Raise (KeyError "slug")
        | Some slug => Ret (vocab ++ [slug])
        end
      else Ret vocab
  end.

Definition subjects_url (batch : list Z) : string :=
  (WK_API_URL ++ "/subjects?ids=" ++ Py.join "," (map Py.str_int batch))%string.

Fixpoint gather_batches (fuel : nat) (batches : list (list Z)) (h : headers)
    (vocab : list string) : M (list string) :=
  match batches with
  | [] => ret vocab
  | batch :: rest =>
      vocab' <- fetch_paginated fuel (Some (subjects_url batch)) h
                  keep_vocabulary vocab ;;
      gather_batches fuel rest h vocab'
  end.

(** [sorted(set(vocab), key=str.lower)] *)
Definition dedup_sort (vocab : list string) : list string :=
  Py.sorted Py.lower (str_set_iter vocab).

Definition gather_vocab_subjects (fuel : nat) (subject_ids : list Z)
    (h : headers) : M (list string) :=
  vocab <- gather_batches fuel (chunked (int_set_iter subject_ids) CHUNK) h [] ;;
  ret (dedup_sort vocab).

(** ** The two resolvers *)

(** [ids.add(rec["data"]["subject_id"])] *)
Definition add_subject_id (ids : list Z) (rec : item) : result (list Z) :=
  match item_subject_id rec with
  | None => Raise (KeyError "subject_id")
  | Some i => Ret (ids ++ [i])
  end.

Definition recent_subject_ids_via_reviews (fuel : nat) (since : string)
    (h : headers) : M (list Z) :=
  fetch_paginated fuel
    (Some (WK_API_URL ++ "/reviews?updated_after=" ++ since)%string)
    h add_subject_id [].

Definition recent_subject_ids_via_assignments (fuel : nat) (since : string)
    (h : headers) : M (list Z) :=
  fetch_paginated fuel
    (Some (WK_API_URL ++ "/assignments?updated_after=" ++ since)%string)
    h add_subject_id [].

(** ** get_vocab *)

Definition environ : Type := string -> option string.

Definition missing_token_message : string :=
  "API token required via --api-token or WANIKANI_API_TOKEN env var".

Definition bearer (token : string) : headers :=
  [("Authorization", ("Bearer " ++ token)%string)].

(** [not xs] for a list, and for a set given by the values put into it. *)
Definition list_is_empty {A : Type} (l : list A) : bool :=
  match l with
  | [] => true
  | _ => false
  end.

Definition get_vocab (fuel : nat) (env : environ) (minutes : Z)
    (api_token : string) : M (list string) :=
  let token := Py.str_or api_token (env "WANIKANI_API_TOKEN"%string) in
  if negb (Py.truthy_opt token) then
    emit (EvStderr missing_token_message) ;;;
    raise (SystemExit 1)
  else
    let token := match token with Some t => t | None => ""%string end in
    let since := iso_now_minus minutes in
    let h := bearer token in
    ids <- try_except_ReviewEndpointDown
             (recent_subject_ids_via_assignments fuel since h)
             (fun text =>
                emit (EvStderr "Reviews endpoint down") ;;;
                raise (ReviewEndpointDown text)) ;;
    if list_is_empty ids then
      emit (EvStderr "No recent reviews found") ;;;
      raise (PlainException "No recent reviews found")
    else
      vocab <- gather_vocab_subjects fuel ids h ;;
      if list_is_empty vocab then
        emit (EvStderr "No vocabulary among those reviews") ;;;
        raise (PlainException "No vocabulary among those reviews")
      else ret vocab.

(** ** Vocabulary of the statements *)

(** Following pages: from [url] in service state [w], every GET is answered
    with a status below 400 and a decodable envelope, whose cursor is the
    address of the next page; [last] is the cursor of the last page followed
    and [w'] the state of the service then. *)
Inductive follows (h : headers)
  : W -> option string -> list (string * payload) -> W -> option string
    -> Prop :=
| follows_nil w url :
    follows h w url [] w url
| follows_page w u r p w1 rest w2 last :
    Py.truthy u = true ->
    requests_get w u h = (Responds r, w1) ->
    (resp_status r < 400)%Z ->
    resp_json r = Some p ->
    follows h w1 (page_next_url p) rest w2 last ->
    follows h w (Some u) ((u, p) :: rest) w2 last.

(** A finite chain of pages: the cursor of its last page is absent (or the
    empty string, which the [while] test treats alike). *)
Definition serves (h : headers) (w : W) (url : option string)
    (pages : list (string * payload)) (w' : W) : Prop :=
  exists last, follows h w url pages w' last /\ Py.truthy_opt last = false.

(** All records of a list of pages, page after page. *)
Definition records_of (pages : list (string * payload)) : list item :=
  flat_map (fun pg => page_data (snd pg)) pages.

(** A loop body run over a list of records without the generator around
    it. *)
Fixpoint fold_result {S : Type} (body : S -> item -> result S)
    (s : S) (records : list item) : result S :=
  match records with
  | [] => Ret s
  | it :: rest =>
      match body s it with
      | Ret s' => fold_result body s' rest
      | Raise e => Raise e
      | Diverge => Diverge
      end
  end.

(** The batches of a lookup served one after the other, each as a chain of
    pages that starts at the address built from the batch. *)
Inductive serves_batches (h : headers)
  : W -> list (list Z) -> list (list (string * payload)) -> W -> Prop :=
| serves_batches_nil w :
    serves_batches h w [] [] w
| serves_batches_cons w batch pages w1 rest chains w2 :
    serves h w (Some (subjects_url batch)) pages w1 ->
    serves_batches h w1 rest chains w2 ->
    serves_batches h w (batch :: rest) (pages :: chains) w2.

(** A run with more events in front. *)
Definition after_events {A : Type} (t : list event) (r : run A) : run A :=
  mk_run (outcome r) (t ++ trace r) (final r).

(** What following one page of a chain looks like from outside. *)
Definition page_events (h : headers) (pg : string * payload) : list event :=
  EvGet (fst pg) h :: map EvYield (page_data (snd pg)).

(** The requests of a trace. *)
Fixpoint requested (t : list event) : list string :=
  match t with
  | [] => []
  | EvGet u _ :: rest => u :: requested rest
  | _ :: rest => requested rest
  end.

(** The headers sent with the requests of a trace. *)
Fixpoint headers_of (t : list event) : list headers :=
  match t with
  | [] => []
  | EvGet _ h :: rest => h :: headers_of rest
  | _ :: rest => headers_of rest
  end.

(** The lines written to standard error in a trace. *)
Fixpoint stderr_of (t : list event) : list string :=
  match t with
  | [] => []
  | EvStderr line :: rest => line :: stderr_of rest
  | _ :: rest => stderr_of rest
  end.

(** The three ways in which [get_vocab] gives up after the credential check,
    described by what the resolver and the lookup do. *)
Inductive failure_condition : Type :=
| EndpointDown     (* the resolver raises ReviewEndpointDown *)
| NoActivity       (* the resolver returns an empty set *)
| NoVocabulary.    (* identifiers were found, the lookup returns [] *)

Definition condition_holds (fuel : nat) (minutes : Z) (token : string)
    (w : W) (c : failure_condition) : Prop :=
  let h := bearer token in
  let r := recent_subject_ids_via_assignments fuel (iso_now_minus minutes) h w in
  match c with
  | EndpointDown => exists text, outcome r = Raise (ReviewEndpointDown text)
  | NoActivity => outcome r = Ret []
  | NoVocabulary =>
      exists ids,
        outcome r = Ret ids /\ ids <> [] /\
        outcome (gather_vocab_subjects fuel ids h (final r)) = Ret []
  end.

End Service.

Arguments mk_run {W A} outcome trace final.
Arguments outcome {W A} r.
Arguments trace {W A} r.
Arguments final {W A} r.

(** What iterating a set must satisfy whatever order the interpreter picks:
    every value put in is visited, once. *)
Definition set_iter_ok {A : Type} (iter : list A -> list A) : Prop :=
  forall l, NoDup (iter l) /\ forall x, In x (iter l) <-> In x l.

(** How the caller can tell two exceptions apart by their class alone. *)
Definition same_class (e1 e2 : exn) : bool :=
  exn_class_eqb (class_of e1) (class_of e2).

(** A result that an [except Exception] clause would catch if it is an
    exception at all. *)
Definition catchable {A : Type} (r : result A) : Prop :=
  forall e, r = Raise e -> is_Exception (class_of e) = true.

(** The name of the environment variable, and the run of [get_vocab] that
    ends in [sys.exit(1)]. *)
Definition token_var : string := "WANIKANI_API_TOKEN".

Definition exits (W : Type) (w : W) : run W (list string) :=
  mk_run (Raise (SystemExit 1)) [EvStderr missing_token_message] w.

(** A list of strings without a repeated entry. *)
Fixpoint distinct (l : list string) : bool :=
  match l with
  | [] => true
  | x :: rest => negb (existsb (String.eqb x) rest) && distinct rest
  end.

(** The slugs of the records of kind vocabulary, in the order of the
    records. *)
Definition vocabulary_slugs (records : list item) : list string :=
  flat_map
    (fun it =>
       match item_object it, item_slug it with
       | Some kind, Some slug =>
           if (kind =? "vocabulary")%string then [slug] else []
       | _, _ => []
       end)
    records.

(** A subject record the lookup can read: it names its kind, and a
    vocabulary record has a slug. *)
Definition readable_subject (it : item) : Prop :=
  exists kind,
    item_object it = Some kind
    /\ ((kind =? "vocabulary")%string = true ->
        exists slug, item_slug it = Some slug).

(** The subject identifiers of the records that have one, in the order of
    the records. *)
Definition recorded_ids (records : list item) : list Z :=
  flat_map
    (fun it => match item_subject_id it with Some i => [i] | None => [] end)
    records.

Definition has_subject_id (it : item) : Prop :=
  exists i, item_subject_id it = Some i.

(** The run of a resolver that raised, seen as a run of [get_vocab]. *)
Definition resolver_as_vocab {W : Type} (r : run W (list Z)) (e : exn)
    : run W (list string) :=
  mk_run (Raise e) (trace r) (final r).

(** The exception that announces each condition. *)
Definition announces (c : failure_condition) (e : exn) : Prop :=
  match c with
  | EndpointDown => exists text, e = ReviewEndpointDown text
  | NoActivity => e = PlainException "No recent reviews found"
  | NoVocabulary => e = PlainException "No vocabulary among those reviews"
  end.

End Wanikani.

(* ================================================================== *)
(** * main.py *)
(* ================================================================== *)

Module Main.

Import Wanikani.

(** ** The start-up code around get_vocab *)

(** How the script gets past lines 68-75. *)
Inductive startup_result : Type :=
| Continues (vocab : list string) (input_text : string)
    (* the script goes on to build the page; [input_text] pre-populates the
       text area *)
| Aborted (e : exn)
    (* an exception leaves the script before any widget is built *)
| Hangs.

Section Startup.
Variable W : Type.
Variable requests_get : W -> string -> headers -> get_result * W.
Variable iso_now_minus : Z -> string.
Variable int_set_iter : list Z -> list Z.
Variable str_set_iter : list string -> list string.

(** [try: vocab = get_vocab(minutes=1440)
     except Exception as e: print(e, file=sys.stderr); vocab = []]
    followed by [input_text = "\n\n\n".join(vocab)]. *)
Definition startup (fuel : nat) (env : environ) (w : W) : startup_result :=
  let nl3 := String "010" (String "010" (String "010" EmptyString)) in
  match outcome (get_vocab W requests_get iso_now_minus int_set_iter
                   str_set_iter fuel env 1440 "" w) with
  | Ret vocab => Continues vocab (Py.join nl3 vocab)
  | Raise e =>
      if is_Exception (class_of e) then Continues [] (Py.join nl3 [])
      else Aborted e
  | Diverge => Hangs
  end.
End Startup.

(** ** gen_chunks *)

(** The response stream of [generate_content_stream], as far as the
    generator looks into it. *)
Record part : Type := mk_part {
  part_text : option string;   (* [None]: no [text] attribute, or [None] *)
  part_thought : option bool   (* [part.thought], which may be [None] *)
}.

Record content : Type := mk_content {
  content_parts : option (list part)
}.

Record candidate : Type := mk_candidate {
  cand_content : option content
}.

Record chunk : Type := mk_chunk {
  chunk_candidates : option (list candidate)
}.

(** The widget the global [thought_box] points to. *)
Inductive widget : Type :=
| Placeholder      (* the [st.empty()] of line 95 *)
| Expander.        (* an [st.expander] made by [finish_thinking] *)

Inductive ui_event : Type :=
| Markdown (box : widget) (body : string)   (* thought_box.markdown(body) *)
| Empty (box : widget)                      (* thought_box.empty() *)
| NewExpander                               (* st.expander(expanded=False, ...) *)
| Yield (text : string)                     (* yield text *)
| Print (text : string).                    (* print(answer) *)

(** The variables the loop works on: the three locals of [gen_chunks] and the
    global [thought_box]. *)
Record state : Type := mk_state {
  answer : string;
  thoughts : string;
  thoughts_folded : bool;
  thought_box : widget
}.

Definition initial : state := mk_state "" "" false Placeholder.

(** [finish_thinking()] *)
Definition finish_thinking (st : state) : state * list ui_event :=
  if negb (thoughts_folded st) then
    (mk_state (answer st) (thoughts st) (thoughts_folded st) Expander,
     [Empty (thought_box st); NewExpander; Markdown Expander (thoughts st)])
  else (st, []).

(** [bool(part.thought)] *)
Definition is_thought (p : part) : bool :=
  match part_thought p with
  | Some b => b
  | None => false
  end.

(** The body of the innermost loop, lines 42-52. *)
Definition process_part (st : state) (p : part) : state * list ui_event :=
  match part_text p with
  | None => (st, [])
  | Some text =>
      if negb (Py.truthy text) then (st, [])
      else if is_thought p then
        let thoughts' := (thoughts st ++ text)%string in
        (mk_state (answer st) thoughts' (thoughts_folded st) (thought_box st),
         [Markdown (thought_box st) thoughts'])
      else
        let (st1, evs) := finish_thinking st in
        (mk_state (answer st1 ++ text)%string (thoughts st1) true
                  (thought_box st1),
         evs ++ [Yield text])
  end.

(** A [for] loop over a list, threading the state and the events. *)
Fixpoint for_each {A : Type} (body : state -> A -> state * list ui_event)
    (st : state) (l : list A) : state * list ui_event :=
  match l with
  | [] => (st, [])
  | x :: rest =>
      let (st1, evs1) := body st x in
      let (st2, evs2) := for_each body st1 rest in
      (st2, evs1 ++ evs2)
  end.

(** Lines 38-52: [for cand in chunk.candidates or []]. *)
Definition process_candidate (st : state) (c : candidate)
    : state * list ui_event :=
  match cand_content c with
  | None => (st, [])
  | Some ct =>
      match content_parts ct with
      | None => (st, [])
      | Some ps => for_each process_part st ps
      end
  end.

Definition process_chunk (st : state) (c : chunk) : state * list ui_event :=
  match chunk_candidates c with
  | None => (st, [])
  | Some cands => for_each process_candidate st cands
  end.

(** [gen_chunks], consumed to its end: the final variables and everything it
    did, in order. *)
Definition gen_chunks (stream : list chunk) : state * list ui_event :=
  let (st, evs) := for_each process_chunk initial stream in
  (st, evs ++ [Print (answer st)]).

(** What the consumer of the generator receives. *)
Fixpoint yields (evs : list ui_event) : list string :=
  match evs with
  | [] => []
  | Yield t :: rest => t :: yields rest
  | _ :: rest => yields rest
  end.

(** How often the body of [finish_thinking] ran. *)
Fixpoint fold_count (evs : list ui_event) : nat :=
  match evs with
  | [] => 0
  | NewExpander :: rest => S (fold_count rest)
  | _ :: rest => fold_count rest
  end.

(** ** Vocabulary of the statements *)

(** The fragments of a stream in arrival order: the parts the three nested
    loops reach. *)
Definition parts_of_candidate (c : candidate) : list part :=
  match cand_content c with
  | Some (mk_content (Some ps)) => ps
  | _ => []
  end.

Definition parts_of_chunk (c : chunk) : list part :=
  match chunk_candidates c with
  | Some cands => flat_map parts_of_candidate cands
  | None => []
  end.

Definition fragments (stream : list chunk) : list part :=
  flat_map parts_of_chunk stream.

(** The text of a fragment as a string (nothing when it is absent). *)
Definition text_of (p : part) : string :=
  match part_text p with
  | Some t => t
  | None => ""
  end.

(** A fragment without text: absent, [None] or empty. *)
Definition no_text (p : part) : bool := negb (Py.truthy (text_of p)).

(** Fragments that carry text, by flag. *)
Definition is_answer (p : part) : bool :=
  negb (no_text p) && negb (is_thought p).

Definition is_thinking (p : part) : bool :=
  negb (no_text p) && is_thought p.

(** String concatenation of a list of texts. *)
Definition cat (l : list string) : string := fold_right String.append "" l.

(** The values a buffer goes through when the texts are appended to it one
    after the other. *)
Fixpoint buffer_values (acc : string) (texts : list string) : list string :=
  match texts with
  | [] => []
  | t :: rest => (acc ++ t)%string :: buffer_values (acc ++ t)%string rest
  end.

(** The generator run on the fragments directly. *)
Definition run_fragments (ps : list part) : state * list ui_event :=
  let (st, evs) := for_each process_part initial ps in
  (st, evs ++ [Print (answer st)]).

(** Fragments that are not flagged as thoughts, with or without text. *)
Definition not_thought (p : part) : bool := negb (is_thought p).

Definition widget_eqb (a b : widget) : bool :=
  match a, b with
  | Placeholder, Placeholder | Expander, Expander => true
  | _, _ => false
  end.

(** The texts written into a widget, in order. *)
Fixpoint markdowns_on (box : widget) (evs : list ui_event) : list string :=
  match evs with
  | [] => []
  | Markdown b body :: rest =>
      if widget_eqb b box then body :: markdowns_on box rest
      else markdowns_on box rest
  | _ :: rest => markdowns_on box rest
  end.

(** An event that acts on the placeholder. *)
Definition on_placeholder (ev : ui_event) : bool :=
  match ev with
  | Markdown Placeholder _ | Empty Placeholder => true
  | _ => false
  end.

(** The events after the first [thought_box.empty()]. *)
Fixpoint after_empty (evs : list ui_event) : list ui_event :=
  match evs with
  | [] => []
  | Empty _ :: rest => rest
  | _ :: rest => after_empty rest
  end.

Definition thought_texts (ps : list part) : list string :=
  map text_of (filter is_thinking ps).

Definition answer_texts (ps : list part) : list string :=
  map text_of (filter is_answer ps).

End Main.

(* ================================================================== *)
(** * wanikani.py as a command *)
(* ================================================================== *)

Module Cli.

Import Wanikani.

(** ** argparse, as far as [main] uses it *)

(** [s.lstrip("-")] *)
Fixpoint lstrip_dashes (s : string) : string :=
  match s with
  | String "-" rest => lstrip_dashes rest
  | _ => s
  end.

(** [s.replace("-", "_")] *)
Fixpoint dashes_to_underscores (s : string) : string :=
  match s with
  | EmptyString => EmptyString
  | String "-" rest => String "_" (dashes_to_underscores rest)
  | String c rest => String c (dashes_to_underscores rest)
  end.

(** An option string is long when its second character is a dash too. *)
Definition is_long_option (s : string) : bool :=
  match s with
  | String _ (String "-" _) => true
  | _ => false
  end.

(** The attribute name [add_argument] derives from the option strings when
    no [dest] is given: the first long option string, or the first one if
    none is long, without its leading dashes, inner dashes turned into
    underscores. *)
Definition dest_of (option_strings : list string) : string :=
  let chosen :=
    match filter is_long_option option_strings with
    | long :: _ => long
    | [] => hd "" option_strings
    end in
  dashes_to_underscores (lstrip_dashes chosen).

(** The values [parse_args] stores. *)
Inductive value : Type :=
| VNone
| VStr (s : string)
| VInt (n : Z).

Definition namespace : Type := list (string * value).

(** [getattr(args, name)]; [None] stands for AttributeError. *)
Fixpoint getattr (args : namespace) (name : string) : option value :=
  match args with
  | [] => None
  | (attr, v) :: rest =>
      if (attr =? name)%string then Some v else getattr rest name
  end.

Definition of_option (o : option string) : value :=
  match o with
  | Some s => VStr s
  | None => VNone
  end.

(** The namespace the parser of [main] returns for a command line it
    accepts: one attribute per [add_argument], holding what was given for
    the option or its default. *)
Definition parsed (api_token : option string) (minutes : Z)
    (out : option string) : namespace :=
  [(dest_of ["-k"; "--api-token"], of_option api_token);
   (dest_of ["-m"; "--minutes"], VInt minutes);
   (dest_of ["-o"; "--out"], of_option out)].

Definition value_truthy (v : value) : bool :=
  match v with
  | VNone => false
  | VStr s => Py.truthy s
  | VInt n => negb (n =? 0)%Z
  end.

(** ** dump_list *)

(** What leaves the process besides the requests. *)
Inductive output : Type :=
| Stdout (text : string)              (* print(text) *)
| Stderr (text : string)              (* print(text, file=sys.stderr) *)
| FileWritten (path content : string).

Definition newline : string := String "010" EmptyString.

Section Command.
Variable W : Type.
Variable requests_get : W -> string -> headers -> get_result * W.
Variable iso_now_minus : Z -> string.
Variable int_set_iter : list Z -> list Z.
Variable str_set_iter : list string -> list string.

(** [os.path.splitext(path)[1]], and the text [csv.writer] produces for a
    list of rows. *)
Variable splitext_ext : string -> string.
Variable csv_text : list (list string) -> string.

(** The arrow of the message, U+21D2, as a string of one character. *)
Variable arrow : string.

(** [dump_list(words, path)], for a file that can be opened for writing. *)
Definition dump_list (words : list string) (path : value) : list output :=
  if negb (value_truthy path) then [Stdout (Py.join newline words)]
  else
    let name := match path with VStr s => s | _ => "" end in
    let ext := Py.lower (splitext_ext name) in
    let content :=
      if (ext =? ".csv")%string
      then csv_text (map (fun w => [w]) ("vocabulary" :: words))
      else Py.join newline words in
    [FileWritten name content;
     Stderr ("Wrote " ++ Py.str_int (Z.of_nat (List.length words))
             ++ " vocab " ++ arrow ++ " " ++ name)%string].

(** ** main *)

Inductive main_result : Type :=
| AttributeError (name : string)
    (* the namespace has no attribute of that name *)
| ParserError (message : string)
    (* [p.error(message)]: usage on standard error, exit status 2 *)
| TypeError
| Ran (r : run W (list string)) (out : list output).
    (* [get_vocab] was called; [out] is what [dump_list] did if it returned *)

(** [main()], from the namespace on; [env] is the environment after
    [load_dotenv()]. *)
Definition main_from (args : namespace) (env : environ) (fuel : nat) (w : W)
    : main_result :=
  match getattr args "token" with
  | None => AttributeError "token"
  | Some given =>
      let token :=
        if value_truthy given then given
        else of_option (env "WANIKANI_API_TOKEN") in
      if negb (value_truthy token) then
        ParserError missing_token_message
      else
        match getattr args "minutes" with
        | None => AttributeError "minutes"
        | Some minutes =>
            match minutes, token with
            | VInt m, VStr t =>
                let r := get_vocab W requests_get iso_now_minus int_set_iter
                           str_set_iter fuel env m t w in
                match outcome r with
                | Ret vocab =>
                    match getattr args "out" with
                    | None => AttributeError "out"
                    | Some out => Ran r (dump_list vocab out)
                    end
                | _ => Ran r []
                end
            | _, _ => TypeError
            end
        end
  end.

Definition main (api_token : option string) (minutes : Z)
    (out : option string) (env : environ) (fuel : nat) (w : W) : main_result :=
  main_from (parsed api_token minutes out) env fuel w.

End Command.

End Cli.

(* ================================================================== *)
(** * Scenarios *)
(* ================================================================== *)

(** Concrete services and streams on which the statements below are run. *)
Module Scenarios.

Import Wanikani Main.

(** A service that answers from a table and counts the requests it got; an
    address outside the table is answered with 404.  Its state is the table
    together with the count. *)
Definition table : Type := list (string * get_result).
Definition service : Type := (table * nat)%type.

Definition table_server (w : service) (url : string) (h : headers)
    : get_result * service :=
  (match find (fun e => (fst e =? url)%string) (fst w) with
   | Some e => snd e
   | None => Responds (mk_response 404 "Not Found" None)
   end,
   (fst w, S (snd w))).

Definition ok_page (records : list item) (next : option string) : get_result :=
  Responds (mk_response 200 "" (Some (mk_payload records next))).

Definition assignment (id : Z) : item :=
  mk_item (Some "assignment") None (Some id).

Definition subject (kind slug : string) : item :=
  mk_item (Some kind) (Some slug) None.

Definition since : string := "2024-05-01T12:00:00Z".
Definition clock (minutes : Z) : string := since.

Definition assignments_url : string :=
  (WK_API_URL ++ "/assignments?updated_after=" ++ since)%string.

(** Two ways of iterating a set: first occurrences in insertion order, and
    the same backwards. *)
Definition iter_Z (l : list Z) : list Z := rev (nodup Z.eq_dec (rev l)).
Definition iter_str (l : list string) : list string :=
  rev (nodup string_dec (rev l)).
Definition iter_str_backwards (l : list string) : list string :=
  nodup string_dec (rev l).

(** One environment with the credential and one without. *)
Definition env_with_token : environ :=
  fun name => if (name =? "WANIKANI_API_TOKEN")%string then Some "secret"
              else None.
Definition env_other_token : environ :=
  fun name => if (name =? "WANIKANI_API_TOKEN")%string then Some "other"
              else None.
Definition env_empty : environ := fun _ => None.

(** The resolver endpoint answers 503. *)
Definition down_table : table :=
  [(assignments_url, Responds (mk_response 503 "Service Unavailable" None))].

(** The resolver endpoint does not answer in time. *)
Definition timeout_table : table :=
  [(assignments_url, TimesOut)].

(** The resolver endpoint rejects the request. *)
Definition unauthorized_table : table :=
  [(assignments_url, Responds (mk_response 401 "Unauthorized" None))].

(** Nothing was reviewed. *)
Definition idle_table : table :=
  [(assignments_url, ok_page [] None)].

(** Subject 101 was reviewed and is a radical. *)
Definition radical_table : table :=
  [(assignments_url, ok_page [assignment 101] None);
   (subjects_url [101%Z], ok_page [subject "radical" "ground"] None)].

(** Four vocabulary subjects were reviewed, over two pages of assignments. *)
Definition page2_url : string :=
  (WK_API_URL ++ "/assignments?page_after_id=2")%string.

Definition vocab_table : table :=
  [(assignments_url,
    ok_page [assignment 1; assignment 2; assignment 1] (Some page2_url));
   (page2_url, ok_page [assignment 3; assignment 4] None);
   (subjects_url [1; 2; 3; 4]%Z,
    ok_page [subject "vocabulary" "banana"; subject "kanji" "ignored";
             subject "vocabulary" "Apple"; subject "vocabulary" "apple";
             subject "vocabulary" "Cherry"; subject "vocabulary" "banana"]
            None)].

Definition example_slugs : list string := ["banana"; "Apple"; "apple"; "Cherry"].

(** The first page of assignments is served, the second answers 503. *)
Definition second_page_down_table : table :=
  [(assignments_url, ok_page [assignment 1] (Some page2_url));
   (page2_url, Responds (mk_response 503 "Service Unavailable" None))].

(** The endpoint answers 200 with something that is not JSON. *)
Definition garbled_table : table :=
  [(assignments_url, Responds (mk_response 200 "<html>" None))].

(** The second record of the first page has no subject identifier. *)
Definition missing_id_table : table :=
  [(assignments_url,
    ok_page [assignment 1; mk_item (Some "assignment") None None; assignment 3]
            (Some page2_url));
   (page2_url, ok_page [assignment 4] None)].

(** The page names itself as the next page. *)
Definition cycle_table : table :=
  [(assignments_url, ok_page [] (Some assignments_url))].

(** Subject 101 was reviewed; the subjects endpoint answers 503. *)
Definition subjects_down_table : table :=
  [(assignments_url, ok_page [assignment 101] None);
   (subjects_url [101%Z],
    Responds (mk_response 503 "Service Unavailable" None))].

(** The identifiers 1 to 1001 make two batches; the first is served with one
    vocabulary record, the second answers 503. *)
Definition many_ids : list Z := map Z.of_nat (seq 1 1001).

Definition second_batch_down_table : table :=
  [(subjects_url (firstn 1000 many_ids),
    ok_page [subject "vocabulary" "first"] None);
   (subjects_url [1001%Z],
    Responds (mk_response 503 "Service Unavailable" None))].


Definition run_get_vocab (t : table) (iter : list string -> list string)
    (env : environ) (api_token : string) : run service (list string) :=
  get_vocab service table_server clock iter_Z iter 10 env 30 api_token (t, 0).

(** Streams for [gen_chunks]. *)
Definition thought (t : string) : part := mk_part (Some t) (Some true).
Definition answer_part (t : string) : part := mk_part (Some t) (Some false).
Definition one_chunk (ps : list part) : chunk :=
  mk_chunk (Some [mk_candidate (Some (mk_content (Some ps)))]).

Definition interleaved : list chunk :=
  [one_chunk [thought "a"; thought "b"];
   one_chunk [answer_part "X"; thought "c"];
   mk_chunk None;
   one_chunk [answer_part "Y"]].

Definition empty_answer_only : list chunk := [one_chunk [answer_part ""]].

(** Three review records, two of them for the same subject. *)
Definition reviews_table : table :=
  [((WK_API_URL ++ "/reviews?updated_after=" ++ since)%string,
    ok_page [assignment 7; assignment 7; assignment 9] None)].

(** The fragments of [interleaved], all in one chunk. *)
Definition regrouped : list chunk :=
  [one_chunk [thought "a"; thought "b"; answer_part "X"; thought "c";
              answer_part "Y"]].

End Scenarios.

(* ================================================================== *)
(** * Facts about the Python primitives *)
(* ================================================================== *)

Module PyFacts.

Import Py.

(** ** String order *)

Lemma ltb_negb_leb (a b : string) : (a <? b)%string = negb (b <=? a)%string.
Proof.
  unfold String.ltb, String.leb.
  rewrite (String.compare_antisym b a).
  destruct (String.compare a b); reflexivity.
Qed.

Lemma compare_refl (a : string) : String.compare a a = Eq.
Proof.
  induction a as [|c a IH]; simpl; [reflexivity|].
  unfold Ascii.compare. rewrite N.compare_refl. exact IH.
Qed.

Lemma leb_refl (a : string) : (a <=? a)%string = true.
Proof. unfold String.leb. now rewrite compare_refl. Qed.

Lemma compare_lt_trans (a b c : string) :
  String.compare a b = Lt -> String.compare b c = Lt -> String.compare a c = Lt.
Proof.
  revert b c.
  induction a as [|x a IH]; intros [|y b] [|z c]; simpl; try congruence.
  unfold Ascii.compare. intros H1 H2.
  destruct (N.compare (N_of_ascii x) (N_of_ascii y)) eqn:Exy; try discriminate;
    destruct (N.compare (N_of_ascii y) (N_of_ascii z)) eqn:Eyz;
    try discriminate.
  - apply N.compare_eq_iff in Exy, Eyz.
    rewrite Exy, Eyz, N.compare_refl. eauto.
  - apply N.compare_eq_iff in Exy. now rewrite Exy, Eyz.
  - apply N.compare_eq_iff in Eyz. now rewrite <- Eyz, Exy.
  - apply N.compare_lt_iff in Exy, Eyz.
    replace (N.compare (N_of_ascii x) (N_of_ascii z)) with Lt; [reflexivity|].
    symmetry. apply N.compare_lt_iff. eapply N.lt_trans; eassumption.
Qed.

Lemma leb_trans (a b c : string) :
  (a <=? b)%string = true -> (b <=? c)%string = true -> (a <=? c)%string = true.
Proof.
  unfold String.leb.
  destruct (String.compare a b) eqn:Hab; try discriminate;
    destruct (String.compare b c) eqn:Hbc; try discriminate; intros _ _.
  - apply String.compare_eq_iff in Hab, Hbc. subst. now rewrite compare_refl.
  - apply String.compare_eq_iff in Hab. subst. now rewrite Hbc.
  - apply String.compare_eq_iff in Hbc. subst. now rewrite Hab.
  - now rewrite (compare_lt_trans a b c).
Qed.

(** ** sorted *)

Section SortedFacts.
Context {A : Type} (key : A -> string).

Local Notation "'key_le'" := (key_le key).

Lemma insert_by_perm (x : A) (l : list A) :
  Permutation (insert_by key x l) (x :: l).
Proof.
  induction l as [|y l IH]; simpl; [reflexivity|].
  destruct (key y <? key x)%string; [|reflexivity].
  rewrite IH. apply perm_swap.
Qed.

Lemma sorted_perm (l : list A) : Permutation (sorted key l) l.
Proof.
  induction l as [|x l IH]; simpl; [reflexivity|].
  rewrite insert_by_perm. now constructor.
Qed.

Lemma insert_by_hd (x y : A) (l : list A) :
  key_le y x -> HdRel key_le y l -> HdRel key_le y (insert_by key x l).
Proof.
  intros Hyx Hl. destruct l as [|z l]; simpl.
  - constructor. exact Hyx.
  - destruct (key z <? key x)%string; constructor; auto.
    now inversion Hl.
Qed.

Lemma insert_by_sorted (x : A) (l : list A) :
  Sorted key_le l -> Sorted key_le (insert_by key x l).
Proof.
  induction 1 as [|y l Hs IH Hhd]; simpl.
  - repeat constructor.
  - destruct (key y <? key x)%string eqn:E.
    + constructor; [exact IH|].
      apply insert_by_hd; [|exact Hhd].
      unfold key_le. unfold String.ltb in E. unfold String.leb.
      now destruct (String.compare (key y) (key x)).
    + constructor; [now constructor|]. constructor.
      unfold key_le. rewrite ltb_negb_leb in E.
      now destruct (key x <=? key y)%string.
Qed.

Lemma sorted_Sorted (l : list A) : Sorted key_le (sorted key l).
Proof.
  induction l as [|x l IH]; simpl; [constructor|].
  now apply insert_by_sorted.
Qed.

Lemma sorted_StronglySorted (l : list A) :
  StronglySorted key_le (sorted key l).
Proof.
  apply Sorted_StronglySorted; [|apply sorted_Sorted].
  intros a b c. unfold key_le. apply leb_trans.
Qed.

Lemma sorted_In (l : list A) (x : A) : In x (sorted key l) <-> In x l.
Proof.
  split; apply Permutation_in;
    [apply sorted_perm | apply Permutation_sym, sorted_perm].
Qed.

Lemma sorted_NoDup (l : list A) : NoDup l -> NoDup (sorted key l).
Proof.
  apply Permutation_NoDup, Permutation_sym, sorted_perm.
Qed.

Lemma sorted_length (l : list A) : List.length (sorted key l) = List.length l.
Proof. apply Permutation_length, sorted_perm. Qed.

(** Stability: the elements carrying one given key keep the order they
    had in the input. *)
Lemma insert_by_filter (k : string) (x : A) (l : list A) :
  Sorted key_le l ->
  filter (fun a => (key a =? k)%string) (insert_by key x l)
  = filter (fun a => (key a =? k)%string) (x :: l).
Proof.
  induction 1 as [|y l Hs IH Hhd]; [reflexivity|].
  simpl insert_by.
  destruct (key y <? key x)%string eqn:E; [|reflexivity].
  cbn [filter]. rewrite IH. cbn [filter].
  destruct (key y =? k)%string eqn:Ey; [|reflexivity].
  destruct (key x =? k)%string eqn:Ex; [|reflexivity].
  apply String.eqb_eq in Ey, Ex. subst k.
  unfold String.ltb in E. rewrite Ex, compare_refl in E. discriminate.
Qed.

Lemma sorted_stable (k : string) (l : list A) :
  filter (fun a => (key a =? k)%string) (sorted key l)
  = filter (fun a => (key a =? k)%string) l.
Proof.
  induction l as [|x l IH]; [reflexivity|].
  simpl sorted. rewrite insert_by_filter by apply sorted_Sorted.
  simpl. now rewrite IH.
Qed.
End SortedFacts.

(** ** range and slices *)

Lemma range_from_length (step : nat) (Hstep : 0 < step) :
  forall fuel start stop,
    stop <= fuel + start ->
    List.length (range_from fuel start stop step)
    = (stop - start + step - 1) / step.
Proof.
  induction fuel as [|fuel IH]; intros start stop Hfuel; simpl.
  - replace (stop - start + step - 1) with (step - 1) by lia.
    symmetry. apply Nat.div_small. lia.
  - destruct (Nat.ltb_spec start stop) as [Hlt|Hge]; simpl.
    + rewrite IH by lia.
      destruct (Nat.le_gt_cases step (stop - start)) as [Hbig|Hsmall].
      * replace (stop - start + step - 1)
          with ((stop - (start + step) + step - 1) + 1 * step) by lia.
        rewrite Nat.div_add by lia. lia.
      * replace (stop - (start + step) + step - 1) with (step - 1) by lia.
        rewrite (Nat.div_small (step - 1)) by lia.
        apply (Nat.div_unique _ _ 1 (stop - start - 1)); lia.
    + replace (stop - start + step - 1) with (step - 1) by lia.
      symmetry. apply Nat.div_small. lia.
Qed.

Lemma range_from_bounds (step : nat) :
  forall fuel start stop i,
    In i (range_from fuel start stop step) -> start <= i < stop.
Proof.
  induction fuel as [|fuel IH]; intros start stop i; simpl; [tauto|].
  destruct (Nat.ltb_spec start stop) as [Hlt|Hge]; simpl; [|tauto].
  intros [<-|Hin]; [lia|]. apply IH in Hin. lia.
Qed.

Lemma range_from_nth (step : nat) :
  forall fuel start stop i,
    start + i * step < stop ->
    i < fuel ->
    nth_error (range_from fuel start stop step) i = Some (start + i * step).
Proof.
  induction fuel as [|fuel IH]; intros start stop i Hlt Hfuel; [lia|].
  simpl. destruct (Nat.ltb_spec start stop) as [_|Hge]; [|lia].
  destruct i as [|i]; simpl.
  - f_equal. lia.
  - rewrite IH by lia. f_equal. lia.
Qed.

Lemma slices_cover {A : Type} (l : list A) (step : nat) (Hstep : 0 < step) :
  forall fuel start,
    List.length l <= fuel + start ->
    List.concat (map (fun i => slice l i (i + step))
                (range_from fuel start (List.length l) step))
    = skipn start l.
Proof.
  induction fuel as [|fuel IH]; intros start Hfuel; simpl.
  - symmetry. apply skipn_all2. lia.
  - destruct (Nat.ltb_spec start (List.length l)) as [Hlt|Hge]; simpl.
    + rewrite IH by lia. unfold slice.
      replace (start + step - start) with step by lia.
      rewrite <- (firstn_skipn step (skipn start l)) at 2.
      now rewrite skipn_skipn, (Nat.add_comm step start).
    + symmetry. now apply skipn_all2.
Qed.

End PyFacts.


(* ================================================================== *)
(** * Facts about wanikani.py *)
(* ================================================================== *)

Module WanikaniFacts.

Import Py Wanikani.

(** ** chunked *)

Section Chunked.
Context {A : Type}.

Lemma chunked_concat (l : list A) (size : nat) :
  0 < size -> List.concat (chunked l size) = l.
Proof.
  intros Hsize. unfold chunked, range0.
  rewrite (PyFacts.slices_cover l size Hsize) by lia.
  apply skipn_0.
Qed.

Lemma chunked_length (l : list A) (size : nat) :
  0 < size ->
  List.length (chunked l size) = (List.length l + size - 1) / size.
Proof.
  intros Hsize. unfold chunked, range0.
  rewrite length_map, (PyFacts.range_from_length size Hsize) by lia.
  now rewrite Nat.sub_0_r.
Qed.

Lemma chunked_batch_size (l : list A) (size : nat) (b : list A) :
  0 < size -> In b (chunked l size) -> 1 <= List.length b <= size.
Proof.
  intros Hsize Hin. unfold chunked in Hin.
  apply in_map_iff in Hin. destruct Hin as [i [<- Hi]].
  apply PyFacts.range_from_bounds in Hi.
  unfold slice. rewrite length_firstn, length_skipn. lia.
Qed.

Lemma NoDup_app_disjoint (l1 l2 : list A) (x : A) :
  NoDup (l1 ++ l2) -> In x l1 -> In x l2 -> False.
Proof.
  induction l1 as [|a l1 IH]; simpl; intros Hnd H1 H2; [contradiction|].
  inversion Hnd as [|? ? Hnotin Hrest]; subst.
  destruct H1 as [->|H1].
  - apply Hnotin, in_or_app. now right.
  - now apply IH.
Qed.

(** The batches are the consecutive slices of the list: batch number [i]
    starts at position [i * size], and holds [size] elements unless the list
    ends before, in which case it holds the rest. *)
Theorem chunked_batches_are_slices (l : list A) (size i : nat) :
  0 < size ->
  i * size < List.length l ->
  nth_error (chunked l size) i = Some (firstn size (skipn (i * size) l))
  /\ List.length (firstn size (skipn (i * size) l))
     = Nat.min size (List.length l - i * size).
Proof.
  intros Hsize Hi. split.
  - unfold chunked, range0. rewrite nth_error_map.
    rewrite (PyFacts.range_from_nth size (List.length l) 0 (List.length l) i)
      by nia.
    simpl. unfold slice. f_equal. f_equal. lia.
  - now rewrite length_firstn, length_skipn.
Qed.

(** In a list of batches whose concatenation has no duplicate, a value sits
    in one batch only. *)
Lemma one_batch (batches : list (list A)) :
  NoDup (List.concat batches) ->
  forall i j bi bj x,
    nth_error batches i = Some bi -> nth_error batches j = Some bj ->
    In x bi -> In x bj -> i = j.
Proof.
  induction batches as [|b batches IH]; intros Hnd i j bi bj x Hi Hj Hxi Hxj.
  - destruct i; discriminate.
  - simpl in Hnd.
    pose proof (NoDup_app_remove_l _ _ Hnd) as Hrest.
    pose proof (fun y => NoDup_app_disjoint b (List.concat batches) y Hnd)
      as Hdisj.
    assert (Hlater : forall k bk, nth_error batches k = Some bk -> In x bk ->
                                  In x (List.concat batches)).
    { intros k bk Hk Hxk. apply in_concat. exists bk. split; [|exact Hxk].
      eapply nth_error_In; eauto. }
    destruct i as [|i], j as [|j]; simpl in Hi, Hj.
    + reflexivity.
    + injection Hi as <-. exfalso. eapply Hdisj; eauto.
    + injection Hj as <-. exfalso. eapply Hdisj; eauto.
    + f_equal. eapply IH; eauto.
Qed.

End Chunked.

(** The number of batches is the ceiling of the quotient. *)
Lemma ceiling_bounds (k size : nat) :
  0 < size ->
  let n := (k + size - 1) / size in
  k <= n * size /\ n * size < k + size.
Proof.
  intros Hsize n.
  pose proof (Nat.div_mod (k + size - 1) size ltac:(lia)) as Hdm.
  pose proof (Nat.mod_upper_bound (k + size - 1) size ltac:(lia)) as Hub.
  fold n in Hdm. nia.
Qed.

(** ** The effect monad *)

Section Monad.
Variable W : Type.

Lemma after_events_nil {A : Type} (r : run W A) : after_events W [] r = r.
Proof. now destruct r. Qed.

Lemma after_events_app {A : Type} (t1 t2 : list event) (r : run W A) :
  after_events W (t1 ++ t2) r = after_events W t1 (after_events W t2 r).
Proof. unfold after_events. simpl. now rewrite <- app_assoc. Qed.

Lemma bind_Ret {A B : Type} (m : M W A) (f : A -> M W B) (w : W) (a : A) :
  outcome (m w) = Ret a ->
  bind W m f w = after_events W (trace (m w)) (f a (final (m w))).
Proof. intros H. unfold bind. now rewrite H. Qed.

Lemma bind_Raise {A B : Type} (m : M W A) (f : A -> M W B) (w : W) (e : exn) :
  outcome (m w) = Raise e ->
  bind W m f w = mk_run (Raise e) (trace (m w)) (final (m w)).
Proof. intros H. unfold bind. now rewrite H. Qed.

Lemma bind_Diverge {A B : Type} (m : M W A) (f : A -> M W B) (w : W) :
  outcome (m w) = Diverge ->
  bind W m f w = mk_run Diverge (trace (m w)) (final (m w)).
Proof. intros H. unfold bind. now rewrite H. Qed.

Lemma try_except_passes {A : Type} (m : M W A) (h : string -> M W A) (w : W) :
  (forall text, outcome (m w) <> Raise (ReviewEndpointDown text)) ->
  try_except_ReviewEndpointDown W m h w = m w.
Proof.
  intros H. unfold try_except_ReviewEndpointDown.
  destruct (outcome (m w)) as [a|[text| | | | | | |]|] eqn:E; try reflexivity.
  now destruct (H text).
Qed.

Lemma try_except_caught {A : Type} (m : M W A) (h : string -> M W A) (w : W)
    (text : string) :
  outcome (m w) = Raise (ReviewEndpointDown text) ->
  try_except_ReviewEndpointDown W m h w
  = after_events W (trace (m w)) (h text (final (m w))).
Proof. intros H. unfold try_except_ReviewEndpointDown. now rewrite H. Qed.

(** A bind raises either in its first part or in its second. *)
Lemma bind_raises {A B : Type} (m : M W A) (f : A -> M W B) (w : W) (e : exn) :
  outcome (bind W m f w) = Raise e ->
  outcome (m w) = Raise e \/
  exists a, outcome (m w) = Ret a /\ outcome (f a (final (m w))) = Raise e.
Proof.
  unfold bind. destruct (outcome (m w)) as [a|e'|] eqn:E; simpl; intros H.
  - right. eauto.
  - left. congruence.
  - discriminate.
Qed.

Lemma bind_returns {A B : Type} (m : M W A) (f : A -> M W B) (w : W) (b : B) :
  outcome (bind W m f w) = Ret b ->
  exists a, outcome (m w) = Ret a /\ outcome (f a (final (m w))) = Ret b.
Proof.
  unfold bind. destruct (outcome (m w)) as [a|e'|] eqn:E; simpl; intros H;
    try discriminate. eauto.
Qed.

End Monad.

(** ** fetch_paginated *)

Section Fetch.
Variable W : Type.
Variable requests_get : W -> string -> headers -> get_result * W.

Local Notation "'fetch'" := (fetch_paginated W requests_get).

(** The inner loop does not touch the service, and hands out the records up
    to the one on which the body fails. *)
Lemma yield_from_run {S : Type} (body : S -> item -> result S) :
  forall records s w,
    outcome (yield_from W body records s w) = fold_result body s records
    /\ final (yield_from W body records s w) = w
    /\ (forall s', fold_result body s records = Ret s' ->
          trace (yield_from W body records s w) = map EvYield records).
Proof.
  induction records as [|it rest IH]; intros s w; simpl.
  - repeat split.
  - unfold bind, emit, lift; simpl.
    destruct (body s it) as [s1|e|]; simpl.
    + destruct (IH s1 w) as [Ho [Hf Ht]].
      destruct (outcome (yield_from W body rest s1 w)) eqn:E; simpl;
        rewrite <- Ho; repeat split; auto; intros s' Hs'; try discriminate;
        f_equal; apply (Ht s'); congruence.
    + repeat split. discriminate.
    + repeat split. discriminate.
Qed.

Lemma yield_from_Ret {S : Type} (body : S -> item -> result S)
    (records : list item) (s s' : S) (w : W) :
  fold_result body s records = Ret s' ->
  yield_from W body records s w = mk_run (Ret s') (map EvYield records) w.
Proof.
  intros H. destruct (yield_from_run body records s w) as [Ho [Hf Ht]].
  destruct (yield_from W body records s w) as [o t f]; simpl in *.
  rewrite Ho, Hf, (Ht s' H), H. reflexivity.
Qed.

Lemma fold_result_app {S : Type} (body : S -> item -> result S) :
  forall l1 l2 s,
    fold_result body s (l1 ++ l2)
    = match fold_result body s l1 with
      | Ret s1 => fold_result body s1 l2
      | Raise e => Raise e
      | Diverge => Diverge
      end.
Proof.
  induction l1 as [|it l1 IH]; intros l2 s; simpl; [reflexivity|].
  destruct (body s it); auto.
Qed.

Lemma fold_collect (records acc : list item) :
  fold_result collect acc records = Ret (acc ++ records).
Proof.
  revert acc. induction records as [|it rest IH]; intros acc; simpl.
  - now rewrite app_nil_r.
  - rewrite IH, <- app_assoc. reflexivity.
Qed.

(** One round of the [while] loop on a page that is served. *)
Lemma fetch_page {S : Type} (body : S -> item -> result S)
    (fuel : nat) (u : string) (h : headers) (s s' : S) (w w1 : W)
    (r : response) (p : payload) :
  truthy u = true ->
  requests_get w u h = (Responds r, w1) ->
  (resp_status r < 400)%Z ->
  resp_json r = Some p ->
  fold_result body s (page_data p) = Ret s' ->
  fetch (Datatypes.S fuel) (Some u) h body s w
  = after_events W (page_events h (u, p))
      (fetch fuel (page_next_url p) h body s' w1).
Proof.
  intros Hu Hget Hst Hjs Hfold. simpl. rewrite Hu.
  unfold bind, get. rewrite Hget. simpl.
  destruct (Z.leb_spec 500 (resp_status r)) as [Hbad|_]; [lia|].
  unfold raise_for_status.
  destruct (Z.leb_spec 400 (resp_status r)) as [Hbad|_]; [lia|].
  simpl. unfold json. rewrite Hjs. simpl.
  rewrite (yield_from_Ret body _ _ _ _ Hfold). simpl.
  reflexivity.
Qed.

(** Following a run of pages, with the loop continuing where it ends. *)
Lemma fetch_follows {S : Type} (body : S -> item -> result S) (h : headers) :
  forall w url pages w1 last,
    follows W requests_get h w url pages w1 last ->
    forall fuel s s1,
      fold_result body s (records_of pages) = Ret s1 ->
      fetch (List.length pages + fuel) url h body s w
      = after_events W (flat_map (page_events h) pages)
          (fetch fuel last h body s1 w1).
Proof.
  induction 1 as [w url|w u r p w1 rest w2 last Hu Hget Hst Hjs Hrest IH];
    intros fuel s s1 Hfold.
  - simpl in *. injection Hfold as <-. now rewrite after_events_nil.
  - unfold records_of in Hfold. simpl in Hfold.
    rewrite fold_result_app in Hfold.
    destruct (fold_result body s (page_data p)) as [s'|e|] eqn:Hpage;
      try discriminate.
    cbn [List.length Nat.add].
    rewrite (fetch_page body _ u h s s' w w1 r p Hu Hget Hst Hjs Hpage).
    rewrite (IH fuel s' s1 Hfold).
    change (flat_map (page_events h) ((u, p) :: rest))
      with (page_events h (u, p) ++ flat_map (page_events h) rest).
    now rewrite after_events_app.
Qed.

(** The loop stops on an absent or empty cursor. *)
Lemma fetch_stop {S : Type} (body : S -> item -> result S)
    (fuel : nat) (url : option string) (h : headers) (s : S) (w : W) :
  truthy_opt url = false ->
  fetch (Datatypes.S fuel) url h body s w = mk_run (Ret s) [] w.
Proof.
  intros H. simpl. destruct url as [u|]; [|reflexivity].
  simpl in H. now rewrite H.
Qed.

(** The three ways in which a page request ends the loop with an error. *)
Lemma fetch_times_out {S : Type} (body : S -> item -> result S)
    (fuel : nat) (u : string) (h : headers) (s : S) (w w1 : W) :
  truthy u = true ->
  requests_get w u h = (TimesOut, w1) ->
  fetch (Datatypes.S fuel) (Some u) h body s w
  = mk_run (Raise Timeout) [EvGet u h] w1.
Proof.
  intros Hu Hget. simpl. rewrite Hu.
  unfold bind, get. now rewrite Hget.
Qed.

Lemma fetch_server_error {S : Type} (body : S -> item -> result S)
    (fuel : nat) (u : string) (h : headers) (s : S) (w w1 : W) (r : response) :
  truthy u = true ->
  requests_get w u h = (Responds r, w1) ->
  (500 <= resp_status r)%Z ->
  fetch (Datatypes.S fuel) (Some u) h body s w
  = mk_run (Raise (ReviewEndpointDown (resp_text r))) [EvGet u h] w1.
Proof.
  intros Hu Hget Hst. simpl. rewrite Hu.
  unfold bind, get. rewrite Hget. simpl.
  destruct (Z.leb_spec 500 (resp_status r)) as [_|Hbad]; [|lia].
  reflexivity.
Qed.

Lemma fetch_client_error {S : Type} (body : S -> item -> result S)
    (fuel : nat) (u : string) (h : headers) (s : S) (w w1 : W) (r : response) :
  truthy u = true ->
  requests_get w u h = (Responds r, w1) ->
  (400 <= resp_status r < 500)%Z ->
  fetch (Datatypes.S fuel) (Some u) h body s w
  = mk_run (Raise (HTTPError (resp_status r))) [EvGet u h] w1.
Proof.
  intros Hu Hget Hst. simpl. rewrite Hu.
  unfold bind, get. rewrite Hget. simpl.
  destruct (Z.leb_spec 500 (resp_status r)) as [Hbad|_]; [lia|].
  unfold raise_for_status.
  destruct (Z.leb_spec 400 (resp_status r)) as [_|Hbad]; [|lia].
  destruct (Z.ltb_spec (resp_status r) 600) as [_|Hbad]; [|lia].
  reflexivity.
Qed.

(** No exception raised by the loop escapes an [except Exception], as long
    as the body raises none that does. *)
Lemma fold_result_catchable {S : Type} (body : S -> item -> result S) :
  (forall s it, catchable (body s it)) ->
  forall records s, catchable (fold_result body s records).
Proof.
  intros Hbody. induction records as [|it rest IH]; intros s e; simpl.
  - discriminate.
  - destruct (body s it) as [s1|e1|] eqn:E; try discriminate.
    + apply IH.
    + intros H. injection H as <-. now apply (Hbody s it).
Qed.

Lemma fetch_catchable {S : Type} (body : S -> item -> result S) (h : headers) :
  (forall s it, catchable (body s it)) ->
  forall fuel url s w, catchable (outcome (fetch fuel url h body s w)).
Proof.
  intros Hbody. induction fuel as [|fuel IH]; intros url s w e; simpl.
  - discriminate.
  - destruct url as [u|]; [|discriminate].
    destruct (truthy u); [|discriminate].
    unfold bind, get.
    destruct (requests_get w u h) as [[r| |] w1]; simpl;
      try (intros H; injection H as <-; reflexivity).
    destruct (500 <=? resp_status r)%Z; simpl;
      [intros H; injection H as <-; reflexivity|].
    unfold raise_for_status.
    destruct ((400 <=? resp_status r)%Z && (resp_status r <? 600)%Z); simpl;
      [intros H; injection H as <-; reflexivity|].
    unfold json. destruct (resp_json r) as [p|]; simpl;
      [|intros H; injection H as <-; reflexivity].
    destruct (yield_from_run body (page_data p) s w1) as [Ho [Hf _]].
    destruct (outcome (yield_from W body (page_data p) s w1)) as [s1|e1|] eqn:E;
      simpl; try discriminate.
    + apply IH.
    + intros H. injection H as <-.
      apply (fold_result_catchable body Hbody (page_data p) s). congruence.
Qed.

(** ** The records and requests of a chain *)

Lemma yielded_app (t1 t2 : list event) :
  yielded (t1 ++ t2) = yielded t1 ++ yielded t2.
Proof.
  induction t1 as [|[u h0|it|line] t1 IH]; simpl; auto. now rewrite IH.
Qed.

Lemma requested_app (t1 t2 : list event) :
  requested (t1 ++ t2) = requested t1 ++ requested t2.
Proof.
  induction t1 as [|[u h0|it|line] t1 IH]; simpl; auto. now rewrite IH.
Qed.

Lemma yielded_map_EvYield (l : list item) : yielded (map EvYield l) = l.
Proof. induction l as [|it l IH]; simpl; congruence. Qed.

Lemma requested_map_EvYield (l : list item) : requested (map EvYield l) = [].
Proof. induction l as [|it l IH]; simpl; congruence. Qed.

Lemma yielded_pages (h : headers) (pages : list (string * payload)) :
  yielded (flat_map (page_events h) pages) = records_of pages.
Proof.
  induction pages as [|[u p] pages IH]; [reflexivity|].
  unfold records_of. simpl.
  rewrite yielded_app, yielded_map_EvYield. f_equal. exact IH.
Qed.

Lemma requested_pages (h : headers) (pages : list (string * payload)) :
  requested (flat_map (page_events h) pages) = map fst pages.
Proof.
  induction pages as [|[u p] pages IH]; [reflexivity|].
  simpl. rewrite requested_app, requested_map_EvYield. simpl. now f_equal.
Qed.

Lemma requested_chains (h : headers) (chains : list (list (string * payload))) :
  requested (flat_map (flat_map (page_events h)) chains)
  = flat_map (map fst) chains.
Proof.
  induction chains as [|pages chains IH]; [reflexivity|].
  cbn [flat_map]. now rewrite requested_app, requested_pages, IH.
Qed.

Lemma records_of_length (pages : list (string * payload)) :
  List.length (records_of pages)
  = list_sum (map (fun pg => List.length (page_data (snd pg))) pages).
Proof.
  induction pages as [|pg pages IH]; [reflexivity|].
  unfold records_of in *. simpl. rewrite length_app. now f_equal.
Qed.

(** The collecting loop after a run of pages. *)
Lemma fetch_all_follows (h : headers) (url : string)
    (pages : list (string * payload)) (w w1 : W) (last : option string)
    (fuel : nat) :
  follows W requests_get h w (Some url) pages w1 last ->
  fetch_all W requests_get (List.length pages + fuel) url h w
  = after_events W (flat_map (page_events h) pages)
      (fetch fuel last h collect (records_of pages) w1).
Proof.
  intros Hf. unfold fetch_all.
  apply (fetch_follows collect h _ _ _ _ _ Hf fuel [] (records_of pages)).
  apply (fold_collect (records_of pages) []).
Qed.

(** C6.  Pagination.  When the service serves a finite chain of pages from
    the starting address, the paginated fetcher, given room for one more
    evaluation of its loop test than there are pages, terminates normally;
    the records it hands out are the concatenation of the pages' data in
    page order; each page's records follow the request for that page and
    precede the request for the next one; the requests made are exactly the
    addresses of the chain, so the loop stops with the absent cursor and not
    before; and the number of records is the sum of the page sizes. *)
Theorem C6_fetch_paginated_concatenates_pages
    (h : headers) (url : string) (pages : list (string * payload))
    (w w' : W) (fuel : nat) :
  serves W requests_get h w (Some url) pages w' ->
  List.length pages < fuel ->
  let r := fetch_all W requests_get fuel url h w in
  outcome r = Ret (records_of pages)
  /\ trace r = flat_map (page_events h) pages
  /\ yielded (trace r) = records_of pages
  /\ requested (trace r) = map fst pages
  /\ List.length (yielded (trace r))
     = list_sum (map (fun pg => List.length (page_data (snd pg))) pages)
  /\ final r = w'.
Proof.
  intros [last [Hf Hlast]] Hfuel r. subst r.
  replace fuel with (List.length pages + Datatypes.S (fuel - List.length pages - 1))
    by lia.
  rewrite (fetch_all_follows h url pages w w' last _ Hf).
  rewrite (fetch_stop collect _ last h _ w' Hlast).
  unfold after_events. simpl. rewrite app_nil_r.
  rewrite yielded_pages, requested_pages, records_of_length.
  repeat split.
Qed.

(** C2.  Error classes of a page request.  A page request that gets no
    answer in time ends the paginated fetcher with the [Timeout] exception of
    the HTTP library: its class is not [ReviewEndpointDown], and it belongs
    to the same family of request errors as the [HTTPError] of a 4xx
    answer.  This holds for the first request and for any later page. *)
Theorem C2_timeout_propagates_as_Timeout
    (h : headers) (url u : string) (pages : list (string * payload))
    (w w1 w2 : W) (fuel : nat) :
  follows W requests_get h w (Some url) pages w1 (Some u) ->
  truthy u = true ->
  requests_get w1 u h = (TimesOut, w2) ->
  List.length pages < fuel ->
  let r := fetch_all W requests_get fuel url h w in
  outcome r = Raise Timeout
  /\ class_of Timeout <> ClsReviewEndpointDown
  /\ is_RequestException (class_of Timeout) = true
  /\ is_RequestException (class_of (HTTPError 404)) = true.
Proof.
  intros Hf Hu Hget Hfuel r. subst r.
  replace fuel with (List.length pages + Datatypes.S (fuel - List.length pages - 1))
    by lia.
  rewrite (fetch_all_follows h url pages w w1 (Some u) _ Hf).
  rewrite (fetch_times_out collect _ u h _ w1 w2 Hu Hget).
  simpl. repeat split. discriminate.
Qed.

(** The other two classes, for comparison: a 5xx answer raises
    [ReviewEndpointDown] with the body of the answer, a 4xx answer raises
    [HTTPError]. *)
Lemma fetch_all_server_error
    (h : headers) (url u : string) (pages : list (string * payload))
    (w w1 w2 : W) (r : response) (fuel : nat) :
  follows W requests_get h w (Some url) pages w1 (Some u) ->
  truthy u = true ->
  requests_get w1 u h = (Responds r, w2) ->
  (500 <= resp_status r)%Z ->
  List.length pages < fuel ->
  outcome (fetch_all W requests_get fuel url h w)
  = Raise (ReviewEndpointDown (resp_text r)).
Proof.
  intros Hf Hu Hget Hst Hfuel.
  replace fuel with (List.length pages + Datatypes.S (fuel - List.length pages - 1))
    by lia.
  rewrite (fetch_all_follows h url pages w w1 (Some u) _ Hf).
  now rewrite (fetch_server_error collect _ u h _ w1 w2 r Hu Hget Hst).
Qed.

Lemma fetch_all_client_error
    (h : headers) (url u : string) (pages : list (string * payload))
    (w w1 w2 : W) (r : response) (fuel : nat) :
  follows W requests_get h w (Some url) pages w1 (Some u) ->
  truthy u = true ->
  requests_get w1 u h = (Responds r, w2) ->
  (400 <= resp_status r < 500)%Z ->
  List.length pages < fuel ->
  outcome (fetch_all W requests_get fuel url h w)
  = Raise (HTTPError (resp_status r)).
Proof.
  intros Hf Hu Hget Hst Hfuel.
  replace fuel with (List.length pages + Datatypes.S (fuel - List.length pages - 1))
    by lia.
  rewrite (fetch_all_follows h url pages w w1 (Some u) _ Hf).
  now rewrite (fetch_client_error collect _ u h _ w1 w2 r Hu Hget Hst).
Qed.

(** The loop over a whole chain, for any body that gets through the
    records. *)
Lemma fetch_serves {S : Type} (body : S -> item -> result S) (h : headers)
    (url : option string) (pages : list (string * payload)) (w w' : W)
    (fuel : nat) (s s' : S) :
  serves W requests_get h w url pages w' ->
  List.length pages < fuel ->
  fold_result body s (records_of pages) = Ret s' ->
  fetch fuel url h body s w
  = mk_run (Ret s') (flat_map (page_events h) pages) w'.
Proof.
  intros [last [Hf Hlast]] Hfuel Hfold.
  replace fuel with (List.length pages + Datatypes.S (fuel - List.length pages - 1))
    by lia.
  rewrite (fetch_follows body h _ _ _ _ _ Hf _ s s' Hfold).
  rewrite (fetch_stop body _ last h s' w' Hlast).
  unfold after_events. simpl. now rewrite app_nil_r.
Qed.

(** The loop over the batches when every batch is served: one chain of
    requests per batch, in the order of the batches. *)
Lemma gather_batches_served (h : headers) (fuel : nat) :
  forall w batches chains w',
    serves_batches W requests_get h w batches chains w' ->
    (forall pages, In pages chains -> List.length pages < fuel) ->
    forall vocab vocab',
      fold_result keep_vocabulary vocab (flat_map records_of chains)
      = Ret vocab' ->
      gather_batches W requests_get fuel batches h vocab w
      = mk_run (Ret vocab') (flat_map (flat_map (page_events h)) chains) w'.
Proof.
  induction 1 as [w|w batch pages w1 rest chains w2 Hpages Hrest IH];
    intros Hfuel vocab vocab' Hfold.
  - simpl in *. now injection Hfold as <-.
  - cbn [flat_map] in Hfold. rewrite fold_result_app in Hfold.
    destruct (fold_result keep_vocabulary vocab (records_of pages))
      as [v1|e|] eqn:Hpage; try discriminate.
    cbn [gather_batches].
    erewrite bind_Ret;
      rewrite (fetch_serves keep_vocabulary h _ pages w w1 fuel vocab v1
                 Hpages (Hfuel pages (or_introl eq_refl)) Hpage);
      [|reflexivity].
    cbn [trace final].
    rewrite (IH (fun pg Hpg => Hfuel pg (or_intror Hpg)) v1 vocab' Hfold).
    reflexivity.
Qed.

(** ** How the loop ends on a page that is not served *)

(** A page request answered with a status of 500 or more, at the first page
    or after any number of served pages, ends the loop with
    [ReviewEndpointDown] carrying the body of the answer.  The records of the
    pages before it were handed out, and the failing request is the last
    one made. *)
Theorem server_error_ends_fetch
    (h : headers) (url u : string) (pages : list (string * payload))
    (w w1 w2 : W) (r : response) (fuel : nat) :
  follows W requests_get h w (Some url) pages w1 (Some u) ->
  truthy u = true ->
  requests_get w1 u h = (Responds r, w2) ->
  (500 <= resp_status r)%Z ->
  List.length pages < fuel ->
  fetch_all W requests_get fuel url h w
  = mk_run (Raise (ReviewEndpointDown (resp_text r)))
      (flat_map (page_events h) pages ++ [EvGet u h]) w2.
Proof.
  intros Hf Hu Hget Hst Hfuel.
  replace fuel with (List.length pages + Datatypes.S (fuel - List.length pages - 1))
    by lia.
  rewrite (fetch_all_follows h url pages w w1 (Some u) _ Hf).
  now rewrite (fetch_server_error collect _ u h _ w1 w2 r Hu Hget Hst).
Qed.

(** A page request answered with a status from 400 to 499 ends the loop with
    the [HTTPError] of [raise_for_status], in the same way. *)
Theorem client_error_ends_fetch
    (h : headers) (url u : string) (pages : list (string * payload))
    (w w1 w2 : W) (r : response) (fuel : nat) :
  follows W requests_get h w (Some url) pages w1 (Some u) ->
  truthy u = true ->
  requests_get w1 u h = (Responds r, w2) ->
  (400 <= resp_status r < 500)%Z ->
  List.length pages < fuel ->
  fetch_all W requests_get fuel url h w
  = mk_run (Raise (HTTPError (resp_status r)))
      (flat_map (page_events h) pages ++ [EvGet u h]) w2.
Proof.
  intros Hf Hu Hget Hst Hfuel.
  replace fuel with (List.length pages + Datatypes.S (fuel - List.length pages - 1))
    by lia.
  rewrite (fetch_all_follows h url pages w w1 (Some u) _ Hf).
  now rewrite (fetch_client_error collect _ u h _ w1 w2 r Hu Hget Hst).
Qed.

Lemma fetch_bad_body {S : Type} (body : S -> item -> result S)
    (fuel : nat) (u : string) (h : headers) (s : S) (w w1 : W) (r : response) :
  truthy u = true ->
  requests_get w u h = (Responds r, w1) ->
  (resp_status r < 400)%Z ->
  resp_json r = None ->
  fetch (Datatypes.S fuel) (Some u) h body s w
  = mk_run (Raise JSONDecodeError) [EvGet u h] w1.
Proof.
  intros Hu Hget Hst Hjs. simpl. rewrite Hu.
  unfold bind, get. rewrite Hget. simpl.
  destruct (Z.leb_spec 500 (resp_status r)) as [Hbad|_]; [lia|].
  unfold raise_for_status.
  destruct (Z.leb_spec 400 (resp_status r)) as [Hbad|_]; [lia|].
  simpl. unfold json. now rewrite Hjs.
Qed.

(** An answer with a status below 400 whose body cannot be decoded ends the
    loop with [JSONDecodeError]. *)
Theorem undecodable_body_ends_fetch
    (h : headers) (url u : string) (pages : list (string * payload))
    (w w1 w2 : W) (r : response) (fuel : nat) :
  follows W requests_get h w (Some url) pages w1 (Some u) ->
  truthy u = true ->
  requests_get w1 u h = (Responds r, w2) ->
  (resp_status r < 400)%Z ->
  resp_json r = None ->
  List.length pages < fuel ->
  fetch_all W requests_get fuel url h w
  = mk_run (Raise JSONDecodeError)
      (flat_map (page_events h) pages ++ [EvGet u h]) w2.
Proof.
  intros Hf Hu Hget Hst Hjs Hfuel.
  replace fuel with (List.length pages + Datatypes.S (fuel - List.length pages - 1))
    by lia.
  rewrite (fetch_all_follows h url pages w w1 (Some u) _ Hf).
  now rewrite (fetch_bad_body collect _ u h _ w1 w2 r Hu Hget Hst Hjs).
Qed.

(** ** A loop body that raises *)

Lemma yield_from_raises {S : Type} (body : S -> item -> result S) :
  forall before it after s s1 e w,
    fold_result body s before = Ret s1 ->
    body s1 it = Raise e ->
    yield_from W body (before ++ it :: after) s w
    = mk_run (Raise e) (map EvYield (before ++ [it])) w.
Proof.
  induction before as [|x before IH]; intros it after s s1 e w Hfold Hit.
  - simpl in Hfold. injection Hfold as <-.
    simpl. unfold bind, emit, lift. simpl. now rewrite Hit.
  - simpl in Hfold. destruct (body s x) as [s0|e0|] eqn:Hx; try discriminate.
    simpl. unfold bind, emit, lift. simpl. rewrite Hx. simpl.
    rewrite (IH it after s0 s1 e w Hfold Hit). reflexivity.
Qed.

(** When the body of the consuming loop raises on a record, the generator is
    not resumed: the records after it on the page are not handed out, and
    the cursor of the page is not followed. *)
Theorem body_failure_ends_fetch {S : Type} (body : S -> item -> result S)
    (h : headers) (url u : string) (pages : list (string * payload))
    (w w1 w2 : W) (r : response) (p : payload)
    (before after : list item) (it : item) (s s1 s2 : S) (e : exn)
    (fuel : nat) :
  follows W requests_get h w (Some url) pages w1 (Some u) ->
  truthy u = true ->
  requests_get w1 u h = (Responds r, w2) ->
  (resp_status r < 400)%Z ->
  resp_json r = Some p ->
  page_data p = before ++ it :: after ->
  fold_result body s (records_of pages) = Ret s1 ->
  fold_result body s1 before = Ret s2 ->
  body s2 it = Raise e ->
  List.length pages < fuel ->
  fetch fuel (Some url) h body s w
  = mk_run (Raise e)
      (flat_map (page_events h) pages
       ++ EvGet u h :: map EvYield (before ++ [it])) w2.
Proof.
  intros Hf Hu Hget Hst Hjs Hdata Hpages Hbefore Hit Hfuel.
  replace fuel with (List.length pages + Datatypes.S (fuel - List.length pages - 1))
    by lia.
  rewrite (fetch_follows body h _ _ _ _ _ Hf _ s s1 Hpages).
  f_equal. simpl. rewrite Hu.
  unfold bind, get. rewrite Hget. simpl.
  destruct (Z.leb_spec 500 (resp_status r)) as [Hbad|_]; [lia|].
  unfold raise_for_status.
  destruct (Z.leb_spec 400 (resp_status r)) as [Hbad|_]; [lia|].
  simpl. unfold json. rewrite Hjs. simpl.
  rewrite Hdata, (yield_from_raises body before it after s1 s2 e w2 Hbefore Hit).
  reflexivity.
Qed.

(** ** A cursor that leads back *)

Lemma fetch_cycle_step {S : Type} (body : S -> item -> result S)
    (h : headers) (u : string) (r : response) (p : payload)
    (reachable : W -> Prop) :
  (forall w, reachable w ->
             exists w', requests_get w u h = (Responds r, w') /\ reachable w') ->
  truthy u = true ->
  (resp_status r < 400)%Z ->
  resp_json r = Some p ->
  page_data p = [] ->
  page_next_url p = Some u ->
  forall fuel s w,
    reachable w ->
    outcome (fetch fuel (Some u) h body s w) = Diverge
    /\ requested (trace (fetch fuel (Some u) h body s w)) = repeat u fuel.
Proof.
  intros Hget Hu Hst Hjs Hdata Hnext.
  induction fuel as [|fuel IH]; intros s w Hw.
  - split; reflexivity.
  - destruct (Hget w Hw) as [w' [Hget' Hw']].
    rewrite (fetch_page body fuel u h s s w w' r p Hu Hget' Hst Hjs)
      by (rewrite Hdata; reflexivity).
    rewrite Hnext. unfold after_events, page_events. cbn [outcome trace fst snd].
    rewrite Hdata. cbn [map app requested repeat].
    destruct (IH s w' Hw') as [Ho Hr]. split; [exact Ho|]. now rewrite Hr.
Qed.

(** The loop has no protection against a cursor that leads back to a page
    already seen.  If the service keeps answering the request for an address
    with a page without records that names this very address as the next
    one, the loop requests it again and again: however many rounds it is
    given, it has not returned, and it made one request per round. *)
Theorem cursor_cycle_never_ends
    (h : headers) (u : string) (r : response) (p : payload)
    (reachable : W -> Prop) (fuel : nat) (w : W) :
  (forall w0, reachable w0 ->
              exists w', requests_get w0 u h = (Responds r, w') /\ reachable w') ->
  reachable w ->
  truthy u = true ->
  (resp_status r < 400)%Z ->
  resp_json r = Some p ->
  page_data p = [] ->
  page_next_url p = Some u ->
  outcome (fetch_all W requests_get fuel u h w) = Diverge
  /\ requested (trace (fetch_all W requests_get fuel u h w)) = repeat u fuel.
Proof.
  intros Hget Hw Hu Hst Hjs Hdata Hnext.
  apply (fetch_cycle_step collect h u r p reachable Hget Hu Hst Hjs Hdata Hnext
           fuel [] w Hw).
Qed.

(** ** The loop bound *)

(** A larger bound changes nothing about a run that came to an end. *)
Lemma fetch_more_fuel {S : Type} (body : S -> item -> result S) (h : headers) :
  forall fuel url s w extra,
    outcome (fetch fuel url h body s w) <> Diverge ->
    fetch (fuel + extra) url h body s w = fetch fuel url h body s w.
Proof.
  induction fuel as [|fuel IH]; intros url s w extra Hend.
  - now destruct Hend.
  - revert Hend. cbn [Nat.add fetch_paginated].
    destruct url as [u|]; [|reflexivity].
    destruct (truthy u); [|reflexivity].
    unfold bind, get.
    destruct (requests_get w u h) as [[r| |] w1]; simpl; try reflexivity.
    destruct (500 <=? resp_status r)%Z; simpl; [reflexivity|].
    unfold raise_for_status.
    destruct ((400 <=? resp_status r)%Z && (resp_status r <? 600)%Z); simpl;
      [reflexivity|].
    unfold json. destruct (resp_json r) as [p|]; simpl; [|reflexivity].
    destruct (outcome (yield_from W body (page_data p) s w1)) as [s1|e1|];
      simpl; try reflexivity.
    intros Hend. rewrite (IH (page_next_url p) s1 _ extra Hend). reflexivity.
Qed.

(** ** The headers of the requests *)

Lemma headers_of_app (t1 t2 : list event) :
  headers_of (t1 ++ t2) = headers_of t1 ++ headers_of t2.
Proof.
  induction t1 as [|[u h0|it|line] t1 IH]; simpl; auto. now rewrite IH.
Qed.

Lemma yield_from_headers {S : Type} (body : S -> item -> result S) :
  forall records s w, headers_of (trace (yield_from W body records s w)) = [].
Proof.
  induction records as [|it rest IH]; intros s w; simpl; [reflexivity|].
  unfold bind, emit, lift. simpl.
  destruct (body s it) as [s1|e|]; simpl; try reflexivity.
  specialize (IH s1 w).
  destruct (outcome (yield_from W body rest s1 w)); simpl; exact IH.
Qed.

(** Every request of the loop carries the headers the loop was given. *)
Lemma fetch_headers {S : Type} (body : S -> item -> result S) (h : headers) :
  forall fuel url s w,
    Forall (eq h) (headers_of (trace (fetch fuel url h body s w))).
Proof.
  induction fuel as [|fuel IH]; intros url s w; simpl.
  - constructor.
  - destruct url as [u|]; [|constructor].
    destruct (truthy u); [|constructor].
    unfold bind, get.
    destruct (requests_get w u h) as [[r| |] w1]; simpl;
      try solve [repeat constructor].
    destruct (500 <=? resp_status r)%Z; simpl; [solve [repeat constructor]|].
    unfold raise_for_status.
    destruct ((400 <=? resp_status r)%Z && (resp_status r <? 600)%Z); simpl;
      [solve [repeat constructor]|].
    unfold json. destruct (resp_json r) as [p|]; simpl;
      [|solve [repeat constructor]].
    pose proof (yield_from_headers body (page_data p) s w1) as Hy.
    destruct (outcome (yield_from W body (page_data p) s w1)) as [s1|e1|];
      simpl; constructor; try reflexivity;
      rewrite ?headers_of_app, Hy; simpl; try constructor.
    apply IH.
Qed.

Lemma serves_batches_length (h : headers) :
  forall w batches chains w',
    serves_batches W requests_get h w batches chains w' ->
    List.length chains = List.length batches.
Proof. induction 1; simpl; congruence. Qed.

End Fetch.

(** ** Iterating a set *)

Lemma set_iter_length {A : Type} (iter : list A -> list A) (l : list A) :
  set_iter_ok iter -> NoDup l -> List.length (iter l) = List.length l.
Proof.
  intros Hok Hl. destruct (Hok l) as [Hnd Hin].
  apply Nat.le_antisymm; apply NoDup_incl_length; auto;
    intros x Hx; now apply Hin.
Qed.

Lemma iter_Z_ok : set_iter_ok Scenarios.iter_Z.
Proof.
  intros l. unfold Scenarios.iter_Z. split.
  - apply NoDup_rev, NoDup_nodup.
  - intros x. now rewrite <- in_rev, nodup_In, <- in_rev.
Qed.

Lemma iter_str_ok : set_iter_ok Scenarios.iter_str.
Proof.
  intros l. unfold Scenarios.iter_str. split.
  - apply NoDup_rev, NoDup_nodup.
  - intros x. now rewrite <- in_rev, nodup_In, <- in_rev.
Qed.

Lemma iter_str_backwards_ok : set_iter_ok Scenarios.iter_str_backwards.
Proof.
  intros l. unfold Scenarios.iter_str_backwards. split.
  - apply NoDup_nodup.
  - intros x. now rewrite nodup_In, <- in_rev.
Qed.

(** ** gather_vocab_subjects and get_vocab *)

Section Service.
Variable W : Type.
Variable requests_get : W -> string -> headers -> get_result * W.
Variable iso_now_minus : Z -> string.
Variable int_set_iter : list Z -> list Z.
Variable str_set_iter : list string -> list string.

Local Notation "'resolver'" :=
  (recent_subject_ids_via_assignments W requests_get).
Local Notation "'lookup'" :=
  (gather_vocab_subjects W requests_get int_set_iter str_set_iter).
Local Notation "'vocab_of'" :=
  (get_vocab W requests_get iso_now_minus int_set_iter str_set_iter).
Local Notation "'exits'" := (exits W).

(** C8.  Batching.  Whatever order the interpreter lists the K distinct
    identifiers of the set in, the lookup cuts that list into
    ceil(K / 1000) batches (the quotient rounded up); every batch holds at
    least one and at most 1000 identifiers; the batches put one after the
    other give the list back; and every identifier of the set sits in one
    batch and in no other.  When the service serves every batch, the lookup
    makes one chain of requests per batch, ceil(K / 1000) chains in all, and
    returns the collected slugs deduplicated and sorted. *)
Theorem C8_batches_partition_the_identifiers (subject_ids : list Z) :
  set_iter_ok int_set_iter ->
  let listed := int_set_iter subject_ids in
  let batches := chunked listed CHUNK in
  let k := List.length listed in
  NoDup listed
  /\ List.length batches = (k + CHUNK - 1) / CHUNK
  /\ (k <= List.length batches * CHUNK /\ List.length batches * CHUNK < k + CHUNK)
  /\ (forall b, In b batches -> 1 <= List.length b <= CHUNK)
  /\ List.concat batches = listed
  /\ (forall id, In id subject_ids ->
        exists i b,
          nth_error batches i = Some b /\ In id b /\
          forall j b', nth_error batches j = Some b' -> In id b' -> j = i)
  /\ (forall fuel h w chains w' vocab,
        serves_batches W requests_get h w batches chains w' ->
        (forall pages, In pages chains -> List.length pages < fuel) ->
        fold_result keep_vocabulary [] (flat_map records_of chains)
        = Ret vocab ->
        let r := lookup fuel subject_ids h w in
        outcome r = Ret (dedup_sort str_set_iter vocab)
        /\ requested (trace r) = flat_map (map fst) chains
        /\ List.length chains = (k + CHUNK - 1) / CHUNK).
Proof.
  intros Hok listed batches k.
  assert (Hsize : 0 < CHUNK) by (unfold CHUNK; lia).
  destruct (Hok subject_ids) as [Hnd Hin].
  assert (Hcat : List.concat batches = listed)
    by (apply chunked_concat; exact Hsize).
  assert (Hlen : List.length batches = (k + CHUNK - 1) / CHUNK)
    by (apply chunked_length; exact Hsize).
  split; [exact Hnd|]. split; [exact Hlen|].
  split; [rewrite Hlen; apply ceiling_bounds; exact Hsize|].
  split; [intros b Hb; apply (chunked_batch_size listed CHUNK b Hsize Hb)|].
  split; [exact Hcat|].
  split.
  - intros id Hid. apply Hin in Hid. fold listed in Hid.
    rewrite <- Hcat in Hid. apply in_concat in Hid.
    destruct Hid as [b [Hb Hidb]].
    apply In_nth_error in Hb. destruct Hb as [i Hi].
    exists i, b. split; [exact Hi|]. split; [exact Hidb|].
    intros j b' Hj Hidb'.
    apply (one_batch batches) with (bi := b') (bj := b) (x := id); auto.
    rewrite Hcat. exact Hnd.
  - intros fuel h w chains w' vocab Hserved Hfuel Hfold r. subst r.
    unfold gather_vocab_subjects. fold listed. fold batches.
    erewrite bind_Ret;
      rewrite (gather_batches_served W requests_get h fuel w batches chains
                 w' Hserved Hfuel [] vocab Hfold);
      [|reflexivity].
    unfold after_events. cbn [outcome trace final ret].
    rewrite app_nil_r.
    split; [reflexivity|].
    split; [apply requested_chains|].
    rewrite (serves_batches_length W requests_get h _ _ _ _ Hserved).
    exact Hlen.
Qed.

(** ** The result of the lookup *)

Lemma lookup_returns (fuel : nat) (ids : list Z) (h : headers) (w : W)
    (result : list string) :
  outcome (lookup fuel ids h w) = Ret result ->
  exists vocab,
    outcome (gather_batches W requests_get fuel
               (chunked (int_set_iter ids) CHUNK) h [] w) = Ret vocab
    /\ result = dedup_sort str_set_iter vocab.
Proof.
  unfold gather_vocab_subjects. intros H.
  apply bind_returns in H. destruct H as [vocab [Hv Hr]].
  exists vocab. split; [exact Hv|]. simpl in Hr. congruence.
Qed.

(** A list of four distinct slugs drawn from the four of the example is
    sorted into one of two orders. *)
Lemma distinct_of_NoDup (l : list string) : NoDup l -> distinct l = true.
Proof.
  induction 1 as [|x l Hnot Hnd IH]; simpl; [reflexivity|].
  rewrite IH, andb_true_r.
  destruct (existsb (String.eqb x) l) eqn:E; [|reflexivity].
  apply existsb_exists in E. destruct E as [y [Hy Hxy]].
  apply String.eqb_eq in Hxy. subst y. contradiction.
Qed.

Lemma example_orders (l : list string) :
  NoDup l ->
  (forall x, In x l <-> In x Scenarios.example_slugs) ->
  sorted lower l = ["Apple"; "apple"; "banana"; "Cherry"]
  \/ sorted lower l = ["apple"; "Apple"; "banana"; "Cherry"].
Proof.
  intros Hnd Hin.
  assert (Hlen : List.length l = 4).
  { apply Nat.le_antisymm.
    - apply (NoDup_incl_length Hnd (l' := Scenarios.example_slugs)).
      intros x Hx. now apply Hin.
    - apply (@NoDup_incl_length _ Scenarios.example_slugs l).
      + unfold Scenarios.example_slugs.
        repeat constructor; simpl; intuition discriminate.
      + intros x Hx. now apply Hin. }
  assert (Hd : distinct l = true) by now apply distinct_of_NoDup.
  destruct l as [|a [|b [|c [|d [|]]]]]; try discriminate Hlen.
  assert (Ha : In a Scenarios.example_slugs) by (apply Hin; simpl; auto).
  assert (Hb : In b Scenarios.example_slugs) by (apply Hin; simpl; auto).
  assert (Hc : In c Scenarios.example_slugs) by (apply Hin; simpl; auto).
  assert (Hdd : In d Scenarios.example_slugs) by (apply Hin; simpl; auto).
  clear Hin Hnd Hlen. unfold Scenarios.example_slugs in *. simpl in Ha, Hb, Hc, Hdd.
  repeat match goal with
         | H : _ \/ _ |- _ => destruct H as [H|H]
         | H : False |- _ => destruct H
         end;
    subst;
    first [ vm_compute in Hd; discriminate Hd
          | left; vm_compute; reflexivity
          | right; vm_compute; reflexivity ].
Qed.

(** C4 (as the program has it).  The list the lookup returns for the slugs it
    collected holds each distinct slug once, upper and lower case kept
    apart; it is ordered by the lower-cased slugs; slugs that agree up to
    case stand in the order in which the set was iterated.  For the collected
    slugs banana, Apple, apple, Cherry the result has four entries and is
    Apple, apple, banana, Cherry or apple, Apple, banana, Cherry. *)
Theorem C4_lookup_result_deduplicated_and_sorted (vocab : list string) :
  set_iter_ok str_set_iter ->
  let result := dedup_sort str_set_iter vocab in
  let example := dedup_sort str_set_iter Scenarios.example_slugs in
  NoDup result
  /\ (forall s, In s result <-> In s vocab)
  /\ StronglySorted (key_le lower) result
  /\ (forall k, filter (fun s => (lower s =? k)%string) result
               = filter (fun s => (lower s =? k)%string) (str_set_iter vocab))
  /\ List.length example = 4
  /\ (example = ["Apple"; "apple"; "banana"; "Cherry"]
      \/ example = ["apple"; "Apple"; "banana"; "Cherry"]).
Proof.
  intros Hok result example. unfold dedup_sort in *.
  destruct (Hok vocab) as [Hnd Hin].
  destruct (Hok Scenarios.example_slugs) as [Hnd' Hin'].
  split; [now apply PyFacts.sorted_NoDup|].
  split; [intros s0; subst result; now rewrite PyFacts.sorted_In|].
  split; [apply PyFacts.sorted_StronglySorted|].
  split; [intros k; apply PyFacts.sorted_stable|].
  pose proof (example_orders _ Hnd' Hin') as Hex. fold example in Hex.
  split; [|exact Hex].
  destruct Hex as [-> | ->]; reflexivity.
Qed.

(** ** get_vocab *)

Lemma str_or_truthy (a : string) (b : option string) :
  truthy a = true -> str_or a b = Some a.
Proof. intros H. unfold str_or. now rewrite H. Qed.

Lemma get_vocab_token (fuel : nat) (env env' : environ) (minutes : Z)
    (api_token t : string) (w : W) :
  str_or api_token (env token_var) = Some t ->
  truthy t = true ->
  vocab_of fuel env minutes api_token w = vocab_of fuel env' minutes t w.
Proof.
  intros Htok Ht. unfold get_vocab. fold token_var.
  rewrite Htok, (str_or_truthy t (env' token_var) Ht). reflexivity.
Qed.

Lemma get_vocab_no_token (fuel : nat) (env : environ) (minutes : Z)
    (api_token : string) (w : W) :
  truthy_opt (str_or api_token (env token_var)) = false ->
  vocab_of fuel env minutes api_token w = exits w.
Proof.
  intros Htok. unfold get_vocab. fold token_var. rewrite Htok. reflexivity.
Qed.

(** C10.  Precedence of the explicit credential.  With a non-empty
    [api_token] argument, [get_vocab] does the same in every environment:
    same result or failure, same requests, same messages.  With an empty
    argument the environment decides: a non-empty value of the variable is
    used as the argument would have been, and without one the call exits. *)
Theorem C10_explicit_token_takes_precedence
    (fuel : nat) (env1 env2 : environ) (minutes : Z) (api_token : string)
    (w : W) :
  truthy api_token = true ->
  vocab_of fuel env1 minutes api_token w
  = vocab_of fuel env2 minutes api_token w
  /\ vocab_of fuel env1 minutes "" w
     = match env1 token_var with
       | Some t =>
           if truthy t then vocab_of fuel env2 minutes t w else exits w
       | None => exits w
       end.
Proof.
  intros Htok. split.
  - apply get_vocab_token; [|exact Htok].
    now apply str_or_truthy.
  - destruct (env1 token_var) as [t|] eqn:E.
    + destruct (truthy t) eqn:Et.
      * apply get_vocab_token; [|exact Et]. exact E.
      * apply get_vocab_no_token. unfold str_or. simpl. now rewrite E.
    + apply get_vocab_no_token. unfold str_or. simpl. now rewrite E.
Qed.

(** What [get_vocab] raises under each of the three conditions. *)
Lemma get_vocab_condition (fuel : nat) (env : environ) (minutes : Z)
    (api_token t : string) (w : W) (c : failure_condition) :
  str_or api_token (env token_var) = Some t ->
  truthy t = true ->
  condition_holds W requests_get iso_now_minus int_set_iter str_set_iter
    fuel minutes t w c ->
  exists e,
    outcome (vocab_of fuel env minutes api_token w) = Raise e /\ announces c e.
Proof.
  intros Htok Ht Hc. unfold get_vocab. fold token_var. rewrite Htok.
  change (truthy_opt (Some t)) with (truthy t). rewrite Ht.
  cbv beta iota zeta delta [negb].
  unfold condition_holds in Hc. cbv zeta in Hc.
  destruct c.
  - destruct Hc as [text Hr].
    exists (ReviewEndpointDown text). split; [|now exists text].
    erewrite bind_Raise; [reflexivity|].
    now rewrite (try_except_caught W _ _ w text Hr).
  - eexists. split; [|reflexivity].
    erewrite bind_Ret
      by (rewrite try_except_passes; [exact Hc | intros text; congruence]).
    reflexivity.
  - destruct Hc as [ids [Hr [Hne Hg]]].
    eexists. split; [|reflexivity].
    erewrite bind_Ret
      by (rewrite try_except_passes; [exact Hr | intros text; congruence]).
    rewrite try_except_passes by (intros text; congruence).
    destruct ids as [|i ids]; [congruence|].
    cbv beta iota delta [list_is_empty].
    unfold after_events. cbn [outcome].
    erewrite bind_Ret by exact Hg.
    reflexivity.
Qed.

(** Two different conditions are announced by different exceptions, and by
    different classes unless the two are [NoActivity] and [NoVocabulary]. *)
Lemma announces_apart (c1 c2 : failure_condition) (e1 e2 : exn) :
  announces c1 e1 -> announces c2 e2 -> c1 <> c2 ->
  e1 <> e2
  /\ (same_class e1 e2 = true <-> c1 <> EndpointDown /\ c2 <> EndpointDown).
Proof.
  destruct c1, c2; simpl; intros H1 H2 Hne; try congruence;
    repeat match goal with
           | H : exists _, _ |- _ => destruct H as [? H]
           end;
    subst; (split; [discriminate|]); unfold same_class; simpl;
    (split; [intros H; try discriminate H; split; discriminate
            | intros [Ha Hb]; congruence]).
Qed.

(** C1 (as the program has it).  Take two invocations of [get_vocab] that
    pass the credential check and fall under two different ones of the
    three conditions.  Both fail, each with the exception that announces its
    condition, and the two exceptions differ.  The caller can tell them apart
    by class exactly when one of the two is the endpoint-down condition:
    [NoActivity] and [NoVocabulary] are both raised as the plain [Exception]
    class and differ in their message only. *)
Theorem C1_failure_conditions_told_apart
    (fuel1 fuel2 : nat) (env1 env2 : environ) (minutes1 minutes2 : Z)
    (api_token1 api_token2 t1 t2 : string) (w1 w2 : W)
    (c1 c2 : failure_condition) :
  str_or api_token1 (env1 token_var) = Some t1 -> truthy t1 = true ->
  str_or api_token2 (env2 token_var) = Some t2 -> truthy t2 = true ->
  condition_holds W requests_get iso_now_minus int_set_iter str_set_iter
    fuel1 minutes1 t1 w1 c1 ->
  condition_holds W requests_get iso_now_minus int_set_iter str_set_iter
    fuel2 minutes2 t2 w2 c2 ->
  c1 <> c2 ->
  exists e1 e2,
    outcome (vocab_of fuel1 env1 minutes1 api_token1 w1) = Raise e1
    /\ outcome (vocab_of fuel2 env2 minutes2 api_token2 w2) = Raise e2
    /\ announces c1 e1 /\ announces c2 e2
    /\ e1 <> e2
    /\ (same_class e1 e2 = true <-> c1 <> EndpointDown /\ c2 <> EndpointDown).
Proof.
  intros Htok1 Ht1 Htok2 Ht2 Hc1 Hc2 Hne.
  destruct (get_vocab_condition fuel1 env1 minutes1 api_token1 t1 w1 c1
              Htok1 Ht1 Hc1) as [e1 [Ho1 Ha1]].
  destruct (get_vocab_condition fuel2 env2 minutes2 api_token2 t2 w2 c2
              Htok2 Ht2 Hc2) as [e2 [Ho2 Ha2]].
  exists e1, e2.
  destruct (announces_apart c1 c2 e1 e2 Ha1 Ha2 Hne) as [Hdiff Hcls].
  split; [exact Ho1|]. split; [exact Ho2|].
  split; [exact Ha1|]. split; [exact Ha2|].
  split; [exact Hdiff|exact Hcls].
Qed.

(** ** What get_vocab can raise *)

Lemma add_subject_id_catchable (ids : list Z) (rec : item) :
  catchable (add_subject_id ids rec).
Proof.
  unfold catchable, add_subject_id. intros e.
  destruct (item_subject_id rec); intros H; [discriminate|].
  now injection H as <-.
Qed.

Lemma keep_vocabulary_catchable (vocab : list string) (subj : item) :
  catchable (keep_vocabulary vocab subj).
Proof.
  unfold catchable, keep_vocabulary. intros e.
  destruct (item_object subj) as [kind|];
    [|intros H; now injection H as <-].
  destruct (kind =? "vocabulary")%string; [|discriminate].
  destruct (item_slug subj); intros H; [discriminate|].
  now injection H as <-.
Qed.

Lemma gather_batches_catchable (fuel : nat) (h : headers) :
  forall batches vocab w,
    catchable (outcome (gather_batches W requests_get fuel batches h vocab w)).
Proof.
  induction batches as [|b rest IH]; intros vocab w e; simpl.
  - discriminate.
  - intros H. apply bind_raises in H.
    destruct H as [H|[v [_ H]]].
    + revert H. apply fetch_catchable. exact keep_vocabulary_catchable.
    + revert H. apply IH.
Qed.

Lemma lookup_catchable (fuel : nat) (ids : list Z) (h : headers) (w : W) :
  catchable (outcome (lookup fuel ids h w)).
Proof.
  intros e H. unfold gather_vocab_subjects in H.
  apply bind_raises in H. destruct H as [H|[v [_ H]]].
  - revert H. apply gather_batches_catchable.
  - discriminate.
Qed.

(** [get_vocab] raises [SystemExit] for a missing credential and for nothing
    else; whatever else it raises derives from [Exception]. *)
Lemma get_vocab_raises (fuel : nat) (env : environ) (minutes : Z)
    (api_token : string) (w : W) (e : exn) :
  outcome (vocab_of fuel env minutes api_token w) = Raise e ->
  (truthy_opt (str_or api_token (env token_var)) = true
   /\ is_Exception (class_of e) = true)
  \/ (truthy_opt (str_or api_token (env token_var)) = false
      /\ e = SystemExit 1).
Proof.
  destruct (truthy_opt (str_or api_token (env token_var))) eqn:Htok.
  - intros H. left. split; [reflexivity|].
    unfold get_vocab in H. fold token_var in H. rewrite Htok in H.
    cbv beta iota zeta delta [negb] in H.
    apply bind_raises in H. destruct H as [H|[ids [_ H]]].
    + unfold try_except_ReviewEndpointDown in H.
      match type of H with
      | context [outcome (?m w)] =>
          destruct (outcome (m w)) as [a|e0|] eqn:E
      end.
      * congruence.
      * assert (He0 : is_Exception (class_of e0) = true).
        { revert E. apply fetch_catchable. exact add_subject_id_catchable. }
        destruct e0; simpl in H; congruence.
      * congruence.
    + destruct (list_is_empty ids).
      * simpl in H. now injection H as <-.
      * apply bind_raises in H. destruct H as [H|[v [_ H]]].
        -- revert H. apply lookup_catchable.
        -- destruct (list_is_empty v); simpl in H; [|discriminate].
           now injection H as <-.
  - intros H. right. split; [reflexivity|].
    rewrite get_vocab_no_token in H by exact Htok.
    simpl in H. congruence.
Qed.

(** ** What the two loop bodies collect *)

Lemma keep_vocabulary_fold (records : list item) :
  Forall readable_subject records ->
  forall vocab,
    fold_result keep_vocabulary vocab records
    = Ret (vocab ++ vocabulary_slugs records).
Proof.
  induction 1 as [|it records [kind [Hkind Hslug]] Hrest IH]; intros vocab.
  - simpl. now rewrite app_nil_r.
  - cbn [fold_result vocabulary_slugs flat_map]. unfold keep_vocabulary.
    rewrite Hkind.
    destruct (kind =? "vocabulary")%string eqn:E.
    + destruct (Hslug eq_refl) as [slug Hs]. rewrite Hs.
      fold (vocabulary_slugs records).
      rewrite IH, <- app_assoc. reflexivity.
    + destruct (item_slug it); fold (vocabulary_slugs records);
        rewrite IH; reflexivity.
Qed.

Lemma add_subject_id_fold (records : list item) :
  Forall has_subject_id records ->
  forall ids,
    fold_result add_subject_id ids records = Ret (ids ++ recorded_ids records).
Proof.
  induction 1 as [|it records [i Hi] Hrest IH]; intros ids.
  - simpl. now rewrite app_nil_r.
  - cbn [fold_result recorded_ids flat_map]. unfold add_subject_id.
    rewrite Hi. fold (recorded_ids records).
    rewrite IH, <- app_assoc. reflexivity.
Qed.

Lemma vocabulary_slugs_In (records : list item) (s : string) :
  In s (vocabulary_slugs records)
  <-> exists it,
        In it records
        /\ item_object it = Some "vocabulary" /\ item_slug it = Some s.
Proof.
  unfold vocabulary_slugs. rewrite in_flat_map. split.
  - intros [it [Hit Hs]]. exists it. split; [exact Hit|].
    destruct (item_object it) as [kind|]; [|contradiction].
    destruct (item_slug it) as [slug|]; [|contradiction].
    destruct (kind =? "vocabulary")%string eqn:E; [|contradiction].
    apply String.eqb_eq in E. destruct Hs as [<-|[]]. now subst.
  - intros [it [Hit [Hk Hs]]]. exists it. split; [exact Hit|].
    rewrite Hk, Hs. simpl. now left.
Qed.

(** ** The loop over the batches, batch by batch *)

Lemma gather_batches_prefix (h : headers) (fuel : nat) :
  forall w done chains w1,
    serves_batches W requests_get h w done chains w1 ->
    (forall pages, In pages chains -> List.length pages < fuel) ->
    forall rest vocab vocab',
      fold_result keep_vocabulary vocab (flat_map records_of chains)
      = Ret vocab' ->
      gather_batches W requests_get fuel (done ++ rest) h vocab w
      = after_events W (flat_map (flat_map (page_events h)) chains)
          (gather_batches W requests_get fuel rest h vocab' w1).
Proof.
  induction 1 as [w|w batch pages w1 done chains w2 Hpages Hdone IH];
    intros Hfuel rest vocab vocab' Hfold.
  - simpl in *. injection Hfold as <-. now rewrite after_events_nil.
  - cbn [flat_map] in Hfold. rewrite fold_result_app in Hfold.
    destruct (fold_result keep_vocabulary vocab (records_of pages))
      as [v1|e|] eqn:Hpage; try discriminate.
    cbn [app gather_batches].
    erewrite bind_Ret;
      rewrite (fetch_serves W requests_get keep_vocabulary h _ pages w w1
                 fuel vocab v1 Hpages (Hfuel pages (or_introl eq_refl)) Hpage);
      [|reflexivity].
    cbn [trace final].
    rewrite (IH (fun pg Hpg => Hfuel pg (or_intror Hpg)) rest v1 vocab' Hfold).
    cbn [flat_map]. now rewrite after_events_app.
Qed.

(** ** The lookup *)

Lemma set_iter_nil {A : Type} (iter : list A -> list A) :
  set_iter_ok iter -> iter [] = [].
Proof.
  intros Hok. destruct (Hok []) as [_ Hin].
  destruct (iter []) as [|x l]; [reflexivity|].
  destruct (proj1 (Hin x) (or_introl eq_refl)).
Qed.

(** The lookup of an empty set of identifiers makes no request and returns
    the empty list. *)
Theorem lookup_of_nothing (fuel : nat) (h : headers) (w : W) :
  set_iter_ok int_set_iter ->
  set_iter_ok str_set_iter ->
  lookup fuel [] h w = mk_run (Ret []) [] w.
Proof.
  intros Hint Hstr. unfold gather_vocab_subjects, dedup_sort.
  rewrite (set_iter_nil int_set_iter Hint).
  unfold bind. simpl. now rewrite (set_iter_nil str_set_iter Hstr).
Qed.

(** There is no isolation between the batches.  When the batches before
    some batch were served and the loop over that batch raises, the lookup
    ends with that exception: whatever was collected so far is dropped, and
    no later batch is requested. *)
Theorem failing_batch_fails_lookup
    (fuel : nat) (subject_ids : list Z) (h : headers) (w w1 : W)
    (done later : list (list Z)) (batch : list Z)
    (chains : list (list (string * payload))) (vocab : list string)
    (e : exn) :
  chunked (int_set_iter subject_ids) CHUNK = done ++ batch :: later ->
  serves_batches W requests_get h w done chains w1 ->
  (forall pages, In pages chains -> List.length pages < fuel) ->
  fold_result keep_vocabulary [] (flat_map records_of chains) = Ret vocab ->
  outcome (fetch_paginated W requests_get fuel (Some (subjects_url batch)) h
             keep_vocabulary vocab w1) = Raise e ->
  let failing := fetch_paginated W requests_get fuel
                   (Some (subjects_url batch)) h keep_vocabulary vocab w1 in
  lookup fuel subject_ids h w
  = mk_run (Raise e)
      (flat_map (flat_map (page_events h)) chains ++ trace failing)
      (final failing).
Proof.
  intros Hbatches Hdone Hfuel Hfold Hraise failing.
  unfold gather_vocab_subjects. rewrite Hbatches.
  erewrite bind_Raise;
    rewrite (gather_batches_prefix h fuel w done chains w1 Hdone Hfuel
               (batch :: later) [] vocab Hfold);
    cbn [gather_batches];
    rewrite (bind_Raise W _ _ w1 e Hraise);
    reflexivity.
Qed.

(** When every batch is served and the records can be read, the lookup
    returns the slugs of the records of kind vocabulary, and of no other
    record: a slug is in the result exactly if some served record of kind
    vocabulary carries it. *)
Theorem lookup_collects_vocabulary_slugs
    (fuel : nat) (subject_ids : list Z) (h : headers) (w w' : W)
    (chains : list (list (string * payload))) :
  set_iter_ok str_set_iter ->
  serves_batches W requests_get h w
    (chunked (int_set_iter subject_ids) CHUNK) chains w' ->
  (forall pages, In pages chains -> List.length pages < fuel) ->
  Forall readable_subject (flat_map records_of chains) ->
  exists result,
    outcome (lookup fuel subject_ids h w) = Ret result
    /\ forall s,
         In s result
         <-> exists it,
               In it (flat_map records_of chains)
               /\ item_object it = Some "vocabulary"
               /\ item_slug it = Some s.
Proof.
  intros Hstr Hserved Hfuel Hread.
  exists (dedup_sort str_set_iter (vocabulary_slugs (flat_map records_of chains))).
  split.
  - unfold gather_vocab_subjects.
    erewrite bind_Ret;
      rewrite (gather_batches_served W requests_get h fuel w _ chains w'
                 Hserved Hfuel [] _ (keep_vocabulary_fold _ Hread []));
      reflexivity.
  - intros s0. unfold dedup_sort.
    rewrite PyFacts.sorted_In.
    destruct (Hstr (vocabulary_slugs (flat_map records_of chains))) as [_ Hin].
    rewrite Hin. apply vocabulary_slugs_In.
Qed.

(** ** The resolver *)

(** When the chain of assignment pages is served and every record has a
    subject identifier, the resolver returns the identifiers of the records
    in the order of the records, repeats included (the set they are put into
    merges them). *)
Theorem resolver_collects_subject_ids
    (fuel : nat) (since : string) (h : headers) (w w' : W)
    (pages : list (string * payload)) :
  serves W requests_get h w
    (Some (WK_API_URL ++ "/assignments?updated_after=" ++ since)%string)
    pages w' ->
  List.length pages < fuel ->
  Forall has_subject_id (records_of pages) ->
  resolver fuel since h w
  = mk_run (Ret (recorded_ids (records_of pages)))
      (flat_map (page_events h) pages) w'.
Proof.
  intros Hserved Hfuel Hids. unfold recent_subject_ids_via_assignments.
  apply (fetch_serves W requests_get add_subject_id h _ pages w w' fuel
           [] _ Hserved Hfuel).
  apply (add_subject_id_fold _ Hids []).
Qed.

(** The resolver over the reviews collection is the same loop at another
    address: when the chain of review pages is served and every record has a
    subject identifier, it returns the identifiers in the order of the
    records. *)
Theorem reviews_resolver_collects_subject_ids
    (fuel : nat) (since : string) (h : headers) (w w' : W)
    (pages : list (string * payload)) :
  serves W requests_get h w
    (Some (WK_API_URL ++ "/reviews?updated_after=" ++ since)%string)
    pages w' ->
  List.length pages < fuel ->
  Forall has_subject_id (records_of pages) ->
  recent_subject_ids_via_reviews W requests_get fuel since h w
  = mk_run (Ret (recorded_ids (records_of pages)))
      (flat_map (page_events h) pages) w'.
Proof.
  intros Hserved Hfuel Hids. unfold recent_subject_ids_via_reviews.
  apply (fetch_serves W requests_get add_subject_id h _ pages w w' fuel
           [] _ Hserved Hfuel).
  apply (add_subject_id_fold _ Hids []).
Qed.

(** ** get_vocab as a whole *)

(** When the resolver raises [ReviewEndpointDown], [get_vocab] writes one
    line to standard error and raises [ReviewEndpointDown] anew with the
    text of the first one, which is the body of the 5xx answer; it makes no
    further request. *)
Theorem endpoint_down_is_announced
    (fuel : nat) (env : environ) (minutes : Z) (api_token t : string) (w : W)
    (text : string) :
  str_or api_token (env token_var) = Some t ->
  truthy t = true ->
  outcome (resolver fuel (iso_now_minus minutes) (bearer t) w)
  = Raise (ReviewEndpointDown text) ->
  let r := resolver fuel (iso_now_minus minutes) (bearer t) w in
  vocab_of fuel env minutes api_token w
  = mk_run (Raise (ReviewEndpointDown text))
      (trace r ++ [EvStderr "Reviews endpoint down"]) (final r).
Proof.
  intros Htok Ht Hres r. subst r.
  unfold get_vocab. fold token_var. rewrite Htok.
  change (truthy_opt (Some t)) with (truthy t). rewrite Ht.
  cbv beta iota zeta delta [negb].
  erewrite bind_Raise
    by (rewrite (try_except_caught W _ _ w text Hres); reflexivity).
  rewrite (try_except_caught W _ _ w text Hres).
  reflexivity.
Qed.

Lemma dedup_sort_nonempty (vocab : list string) :
  set_iter_ok str_set_iter ->
  vocab <> [] -> list_is_empty (dedup_sort str_set_iter vocab) = false.
Proof.
  intros Hok Hne. destruct vocab as [|x vocab]; [congruence|].
  destruct (dedup_sort str_set_iter (x :: vocab)) as [|y l] eqn:E;
    [|reflexivity].
  exfalso. destruct (Hok (x :: vocab)) as [_ Hin].
  assert (Hx : In x (dedup_sort str_set_iter (x :: vocab))).
  { unfold dedup_sort. apply PyFacts.sorted_In, Hin. now left. }
  rewrite E in Hx. exact Hx.
Qed.

(** The whole of a successful call.  With a credential, a served chain of
    assignment pages whose records carry identifiers, and served batches
    whose records can be read and hold at least one vocabulary record,
    [get_vocab] returns the vocabulary slugs, deduplicated and sorted.  It
    first requests the assignment pages, then the batches, and writes
    nothing to standard error. *)
Theorem get_vocab_succeeds
    (fuel : nat) (env : environ) (minutes : Z) (api_token t : string)
    (w w1 w2 : W) (pages : list (string * payload))
    (chains : list (list (string * payload))) :
  set_iter_ok str_set_iter ->
  str_or api_token (env token_var) = Some t ->
  truthy t = true ->
  serves W requests_get (bearer t) w
    (Some (WK_API_URL ++ "/assignments?updated_after="
           ++ iso_now_minus minutes)%string)
    pages w1 ->
  List.length pages < fuel ->
  Forall has_subject_id (records_of pages) ->
  recorded_ids (records_of pages) <> [] ->
  serves_batches W requests_get (bearer t) w1
    (chunked (int_set_iter (recorded_ids (records_of pages))) CHUNK)
    chains w2 ->
  (forall pgs, In pgs chains -> List.length pgs < fuel) ->
  Forall readable_subject (flat_map records_of chains) ->
  vocabulary_slugs (flat_map records_of chains) <> [] ->
  vocab_of fuel env minutes api_token w
  = mk_run
      (Ret (dedup_sort str_set_iter
              (vocabulary_slugs (flat_map records_of chains))))
      (flat_map (page_events (bearer t)) pages
       ++ flat_map (flat_map (page_events (bearer t))) chains)
      w2.
Proof.
  intros Hstr Htok Ht Hpages Hfuel Hids Hne Hchains Hfuel2 Hread Hvocab.
  unfold get_vocab. fold token_var. rewrite Htok.
  change (truthy_opt (Some t)) with (truthy t). rewrite Ht.
  cbv beta iota zeta delta [negb].
  assert (Hres : resolver fuel (iso_now_minus minutes) (bearer t) w
                 = mk_run (Ret (recorded_ids (records_of pages)))
                     (flat_map (page_events (bearer t)) pages) w1)
    by exact (fetch_serves W requests_get add_subject_id (bearer t) _ pages
                w w1 fuel [] _ Hpages Hfuel (add_subject_id_fold _ Hids [])).
  erewrite bind_Ret
    by (rewrite try_except_passes; rewrite Hres;
        [reflexivity | intros text; discriminate]).
  rewrite try_except_passes by (rewrite Hres; intros text; discriminate).
  rewrite Hres. cbn [trace final].
  destruct (recorded_ids (records_of pages)) as [|i ids] eqn:Eids;
    [congruence|].
  cbv beta iota delta [list_is_empty]. rewrite <- Eids in *.
  assert (Hlook :
    lookup fuel (recorded_ids (records_of pages)) (bearer t) w1
    = mk_run (Ret (dedup_sort str_set_iter
                     (vocabulary_slugs (flat_map records_of chains))))
        (flat_map (flat_map (page_events (bearer t))) chains) w2).
  { unfold gather_vocab_subjects.
    erewrite bind_Ret;
      rewrite (gather_batches_served W requests_get (bearer t) fuel w1 _
                 chains w2 Hchains Hfuel2 [] _ (keep_vocabulary_fold _ Hread []));
      [|reflexivity].
    unfold after_events. simpl. now rewrite app_nil_r. }
  erewrite bind_Ret by (rewrite Hlook; reflexivity).
  rewrite Hlook. cbn [trace final].
  pose proof (dedup_sort_nonempty _ Hstr Hvocab) as Hnonempty.
  destruct (dedup_sort str_set_iter
              (vocabulary_slugs (flat_map records_of chains))) as [|x l];
    [discriminate|].
  unfold after_events. simpl. rewrite app_nil_r. reflexivity.
Qed.

Lemma get_vocab_returns_some
    (fuel : nat) (env : environ) (minutes : Z) (api_token : string) (w : W)
    (vocab : list string) :
  outcome (vocab_of fuel env minutes api_token w) = Ret vocab ->
  vocab <> [].
Proof.
  unfold get_vocab.
  destruct (negb (truthy_opt (str_or api_token (env "WANIKANI_API_TOKEN"%string)))).
  - simpl. discriminate.
  - intros H. apply bind_returns in H. destruct H as [ids [_ H]].
    destruct (list_is_empty ids); [simpl in H; discriminate|].
    apply bind_returns in H. destruct H as [v [_ H]].
    destruct v as [|x v]; simpl in H; [discriminate|].
    injection H as <-. discriminate.
Qed.

Lemma stderr_of_app (t1 t2 : list event) :
  stderr_of (t1 ++ t2) = stderr_of t1 ++ stderr_of t2.
Proof.
  induction t1 as [|[u h0|it|line] t1 IH]; simpl; auto. now rewrite IH.
Qed.

Lemma bind_silent {A B : Type} (m : M W A) (f : A -> M W B) (w : W) :
  stderr_of (trace (m w)) = [] ->
  (forall a, outcome (m w) = Ret a ->
             stderr_of (trace (f a (final (m w)))) = []) ->
  stderr_of (trace (bind W m f w)) = [].
Proof.
  intros Hm Hf. unfold bind.
  destruct (outcome (m w)) as [a|e|] eqn:E; simpl; try exact Hm.
  rewrite stderr_of_app, Hm. now apply Hf.
Qed.

Lemma yield_from_silent {S : Type} (body : S -> item -> result S) :
  forall records s w, stderr_of (trace (yield_from W body records s w)) = [].
Proof.
  induction records as [|it rest IH]; intros s w; simpl; [reflexivity|].
  unfold bind, emit, lift. simpl.
  destruct (body s it) as [s1|e|]; simpl; try reflexivity.
  specialize (IH s1 w).
  destruct (outcome (yield_from W body rest s1 w)); simpl; exact IH.
Qed.

(** The loop over the pages writes nothing to standard error. *)
Lemma fetch_silent {S : Type} (body : S -> item -> result S) (h : headers) :
  forall fuel url s w,
    stderr_of (trace (fetch_paginated W requests_get fuel url h body s w)) = [].
Proof.
  induction fuel as [|fuel IH]; intros url s w; simpl; [reflexivity|].
  destruct url as [u|]; [|reflexivity].
  destruct (truthy u); [|reflexivity].
  unfold bind, get.
  destruct (requests_get w u h) as [[r| |] w1]; simpl; try reflexivity.
  destruct (500 <=? resp_status r)%Z; simpl; [reflexivity|].
  unfold raise_for_status.
  destruct ((400 <=? resp_status r)%Z && (resp_status r <? 600)%Z); simpl;
    [reflexivity|].
  unfold json. destruct (resp_json r) as [p|]; simpl; [|reflexivity].
  pose proof (yield_from_silent body (page_data p) s w1) as Hy.
  destruct (outcome (yield_from W body (page_data p) s w1)) as [s1|e1|];
    simpl; rewrite ?stderr_of_app, Hy; simpl; try reflexivity.
  apply IH.
Qed.

Lemma gather_batches_silent (fuel : nat) (h : headers) :
  forall batches vocab w,
    stderr_of (trace (gather_batches W requests_get fuel batches h vocab w))
    = [].
Proof.
  induction batches as [|b rest IH]; intros vocab w; simpl; [reflexivity|].
  apply bind_silent; [apply fetch_silent|]. intros v _. apply IH.
Qed.

Lemma lookup_silent (fuel : nat) (ids : list Z) (h : headers) (w : W) :
  stderr_of (trace (lookup fuel ids h w)) = [].
Proof.
  unfold gather_vocab_subjects.
  apply bind_silent; [apply gather_batches_silent|]. reflexivity.
Qed.

(** What a call of [get_vocab] that returns looks like: it had a
    credential, it hands back at least one slug (never the empty list),
    and it wrote nothing to standard error. *)
Theorem get_vocab_never_returns_nothing
    (fuel : nat) (env : environ) (minutes : Z) (api_token : string) (w : W)
    (vocab : list string) :
  outcome (vocab_of fuel env minutes api_token w) = Ret vocab ->
  vocab <> []
  /\ truthy_opt (str_or api_token (env token_var)) = true
  /\ stderr_of (trace (vocab_of fuel env minutes api_token w)) = [].
Proof.
  intros H. split; [exact (get_vocab_returns_some _ _ _ _ _ _ H)|].
  revert H. unfold get_vocab. fold token_var.
  destruct (truthy_opt (str_or api_token (env token_var))) eqn:Htok;
    cbv beta iota zeta delta [negb]; [|simpl; discriminate].
  intros H. split; [reflexivity|].
  set (t := match str_or api_token (env token_var) with
            | Some t0 => t0
            | None => ""
            end) in *.
  apply bind_returns in H. destruct H as [ids [Hids H]].
  assert (Hres : try_except_ReviewEndpointDown W
                   (resolver fuel (iso_now_minus minutes) (bearer t))
                   (fun text =>
                      bind W (emit W (EvStderr "Reviews endpoint down"))
                        (fun _ => raise W (ReviewEndpointDown text))) w
                 = resolver fuel (iso_now_minus minutes) (bearer t) w).
  { apply try_except_passes. intros text Hr.
    unfold try_except_ReviewEndpointDown in Hids. rewrite Hr in Hids.
    simpl in Hids. discriminate. }
  apply bind_silent.
  - rewrite Hres. apply fetch_silent.
  - intros ids' Hids'. rewrite Hids in Hids'. injection Hids' as <-.
    destruct (list_is_empty ids); [simpl in H; discriminate|].
    apply bind_returns in H. destruct H as [v [Hv H]].
    apply bind_silent; [apply lookup_silent|].
    intros v' Hv'. rewrite Hv in Hv'. injection Hv' as <-.
    destruct (list_is_empty v); [simpl in H; discriminate|]. reflexivity.
Qed.

(** When the resolver finds nothing, the lookup is not called: the run of
    [get_vocab] is the run of the resolver followed by one line on standard
    error, and no request goes to the subjects endpoint. *)
Theorem no_activity_skips_lookup
    (fuel : nat) (env : environ) (minutes : Z) (api_token t : string) (w : W) :
  str_or api_token (env token_var) = Some t ->
  truthy t = true ->
  outcome (resolver fuel (iso_now_minus minutes) (bearer t) w) = Ret [] ->
  let r := resolver fuel (iso_now_minus minutes) (bearer t) w in
  vocab_of fuel env minutes api_token w
  = mk_run (Raise (PlainException "No recent reviews found"))
      (trace r ++ [EvStderr "No recent reviews found"]) (final r).
Proof.
  intros Htok Ht Hres r. subst r.
  unfold get_vocab. fold token_var. rewrite Htok.
  change (truthy_opt (Some t)) with (truthy t). rewrite Ht.
  cbv beta iota zeta delta [negb].
  erewrite bind_Ret
    by (rewrite try_except_passes; [exact Hres | intros text; congruence]).
  rewrite try_except_passes by (intros text; congruence).
  reflexivity.
Qed.

(** A failure of the resolver other than [ReviewEndpointDown] (a rejected
    credential, a timeout, a record without identifier) leaves [get_vocab]
    as it is: same exception, nothing written to standard error, no further
    request. *)
Theorem resolver_failure_passes_through
    (fuel : nat) (env : environ) (minutes : Z) (api_token t : string) (w : W)
    (e : exn) :
  str_or api_token (env token_var) = Some t ->
  truthy t = true ->
  outcome (resolver fuel (iso_now_minus minutes) (bearer t) w) = Raise e ->
  class_of e <> ClsReviewEndpointDown ->
  vocab_of fuel env minutes api_token w
  = resolver_as_vocab (resolver fuel (iso_now_minus minutes) (bearer t) w) e.
Proof.
  intros Htok Ht Hres Hcls.
  unfold get_vocab. fold token_var. rewrite Htok.
  change (truthy_opt (Some t)) with (truthy t). rewrite Ht.
  cbv beta iota zeta delta [negb].
  erewrite bind_Raise
    by (rewrite try_except_passes;
        [exact Hres | intros text He; rewrite He in Hres;
                      injection Hres as <-; now apply Hcls]).
  rewrite try_except_passes
    by (intros text He; rewrite He in Hres; injection Hres as <-;
        now apply Hcls).
  reflexivity.
Qed.

(** A failure of the lookup leaves [get_vocab] as it is, whatever its
    class: the exception is the one the lookup raised and nothing is written
    to standard error.  This includes [ReviewEndpointDown] raised for the
    subjects endpoint, which the caller cannot tell from the one raised for
    the assignments endpoint. *)
Theorem lookup_failure_passes_through
    (fuel : nat) (env : environ) (minutes : Z) (api_token t : string) (w : W)
    (ids : list Z) (e : exn) :
  str_or api_token (env token_var) = Some t ->
  truthy t = true ->
  outcome (resolver fuel (iso_now_minus minutes) (bearer t) w) = Ret ids ->
  ids <> [] ->
  let r := resolver fuel (iso_now_minus minutes) (bearer t) w in
  outcome (lookup fuel ids (bearer t) (final r)) = Raise e ->
  let l := lookup fuel ids (bearer t) (final r) in
  vocab_of fuel env minutes api_token w
  = mk_run (Raise e) (trace r ++ trace l) (final l).
Proof.
  intros Htok Ht Hres Hne r Hlook l. subst r l.
  unfold get_vocab. fold token_var. rewrite Htok.
  change (truthy_opt (Some t)) with (truthy t). rewrite Ht.
  cbv beta iota zeta delta [negb].
  erewrite bind_Ret
    by (rewrite try_except_passes; [exact Hres | intros text; congruence]).
  rewrite try_except_passes by (intros text; congruence).
  destruct ids as [|i ids]; [congruence|].
  cbv beta iota delta [list_is_empty].
  rewrite (bind_Raise W _ _ _ e Hlook).
  reflexivity.
Qed.

(** ** The credential on the wire *)

Lemma bind_headers {A B : Type} (P : headers -> Prop)
    (m : M W A) (f : A -> M W B) (w : W) :
  Forall P (headers_of (trace (m w))) ->
  (forall a, outcome (m w) = Ret a ->
             Forall P (headers_of (trace (f a (final (m w)))))) ->
  Forall P (headers_of (trace (bind W m f w))).
Proof.
  intros Hm Hf. unfold bind.
  destruct (outcome (m w)) as [a|e|] eqn:E; simpl; try exact Hm.
  rewrite headers_of_app. apply Forall_app. split; [exact Hm|].
  now apply Hf.
Qed.

Lemma gather_batches_headers (fuel : nat) (h : headers) :
  forall batches vocab w,
    Forall (eq h)
      (headers_of (trace (gather_batches W requests_get fuel batches h vocab w))).
Proof.
  induction batches as [|b rest IH]; intros vocab w; simpl.
  - constructor.
  - apply bind_headers.
    + apply fetch_headers.
    + intros v _. apply IH.
Qed.

Lemma lookup_headers (fuel : nat) (ids : list Z) (h : headers) (w : W) :
  Forall (eq h) (headers_of (trace (lookup fuel ids h w))).
Proof.
  unfold gather_vocab_subjects. apply bind_headers.
  - apply gather_batches_headers.
  - intros v _. constructor.
Qed.

(** Every request [get_vocab] makes carries one header, the bearer
    credential, built from the argument if that is not empty and from the
    environment otherwise.  Without a credential there is no request. *)
Theorem every_request_is_authorized
    (fuel : nat) (env : environ) (minutes : Z) (api_token : string) (w : W) :
  Forall
    (fun h =>
       exists t,
         str_or api_token (env token_var) = Some t
         /\ truthy t = true /\ h = bearer t)
    (headers_of (trace (vocab_of fuel env minutes api_token w))).
Proof.
  unfold get_vocab. fold token_var.
  destruct (str_or api_token (env token_var)) as [t|] eqn:Htok;
    [|constructor].
  change (truthy_opt (Some t)) with (truthy t).
  destruct (truthy t) eqn:Ht; [|constructor].
  cbv beta iota zeta delta [negb].
  apply Forall_impl with (P := eq (bearer t)).
  { intros h <-. exists t. repeat split. exact Ht. }
  apply bind_headers.
  - unfold try_except_ReviewEndpointDown.
    pose proof (fetch_headers W requests_get add_subject_id (bearer t) fuel
                  (Some (WK_API_URL ++ "/assignments?updated_after="
                         ++ iso_now_minus minutes)%string) [] w) as Hres.
    fold (resolver fuel (iso_now_minus minutes) (bearer t) w) in Hres.
    destruct (outcome (resolver fuel (iso_now_minus minutes) (bearer t) w))
      as [a|[text| | | | | | |]|]; try exact Hres.
    simpl. rewrite headers_of_app. apply Forall_app. split; [exact Hres|].
    constructor.
  - intros ids _. destruct (list_is_empty ids); [constructor|].
    apply bind_headers.
    + apply lookup_headers.
    + intros v _. destruct (list_is_empty v); constructor.
Qed.

End Service.

(** ** The statements on the scenarios *)

Section OnScenarios.
Import Scenarios.

Local Notation "'two_pages'" :=
  [(assignments_url,
    mk_payload [assignment 1; assignment 2; assignment 1] (Some page2_url));
   (page2_url, mk_payload [assignment 3; assignment 4] None)].

Lemma vocab_table_serves_two_pages (h : headers) :
  serves service table_server h (vocab_table, 0) (Some assignments_url)
    two_pages (vocab_table, 2).
Proof.
  exists None. split; [|reflexivity].
  eapply follows_page; try reflexivity.
  eapply follows_page; try reflexivity.
  apply follows_nil.
Defined.

Lemma C6_two_pages :
  serves service table_server [] (vocab_table, 0) (Some assignments_url)
    two_pages (vocab_table, 2)
  /\ 2 < 3
  /\ let r := fetch_all service table_server 3 assignments_url []
               (vocab_table, 0) in
     outcome r = Ret [assignment 1; assignment 2; assignment 1;
                      assignment 3; assignment 4]
     /\ requested (trace r) = [assignments_url; page2_url]
     /\ List.length (yielded (trace r)) = 3 + 2.
Proof.
  split; [apply vocab_table_serves_two_pages|]. split; [lia|].
  destruct (C6_fetch_paginated_concatenates_pages service table_server
              [] assignments_url two_pages (vocab_table, 0) (vocab_table, 2) 3
              (vocab_table_serves_two_pages []) ltac:(cbn; lia))
    as [Ho [_ [_ [Hreq [Hlen _]]]]].
  split; [exact Ho|]. split; [exact Hreq|exact Hlen].
Defined.

Lemma C2_first_request_times_out :
  follows service table_server [] (timeout_table, 0) (Some assignments_url)
    [] (timeout_table, 0) (Some assignments_url)
  /\ Py.truthy assignments_url = true
  /\ table_server (timeout_table, 0) assignments_url []
     = (TimesOut, (timeout_table, 1))
  /\ 0 < 1
  /\ outcome (fetch_all service table_server 1 assignments_url []
                (timeout_table, 0)) = Raise Timeout.
Proof.
  split; [apply follows_nil|]. split; [reflexivity|].
  split; [reflexivity|]. split; [lia|].
  apply (C2_timeout_propagates_as_Timeout service table_server
           [] assignments_url assignments_url [] (timeout_table, 0)
           (timeout_table, 0) (timeout_table, 1) 1
           (follows_nil _ _ _ _ _) eq_refl eq_refl ltac:(cbn; lia)).
Defined.

Local Notation "'subjects_page'" :=
  (mk_payload
     [subject "vocabulary" "banana"; subject "kanji" "ignored";
      subject "vocabulary" "Apple"; subject "vocabulary" "apple";
      subject "vocabulary" "Cherry"; subject "vocabulary" "banana"]
     None).

Lemma vocab_table_serves_the_batch (h : headers) :
  serves_batches service table_server h (vocab_table, 2)
    (chunked (iter_Z [1; 2; 1; 3; 4]%Z) CHUNK)
    [[(subjects_url [1; 2; 3; 4]%Z, subjects_page)]] (vocab_table, 3).
Proof.
  apply (serves_batches_cons service table_server h (vocab_table, 2)
           [1; 2; 3; 4]%Z _ (vocab_table, 3) [] [] (vocab_table, 3)).
  - exists None. split; [|reflexivity].
    eapply follows_page; try reflexivity. apply follows_nil.
  - apply serves_batches_nil.
Defined.

Lemma C8_four_identifiers :
  set_iter_ok iter_Z
  /\ let batches := chunked (iter_Z [1; 2; 1; 3; 4]%Z) CHUNK in
     List.length batches = (4 + CHUNK - 1) / CHUNK
     /\ List.concat batches = [1; 2; 3; 4]%Z
     /\ let r := gather_vocab_subjects service table_server iter_Z iter_str
                   5 [1; 2; 1; 3; 4]%Z [] (vocab_table, 2) in
        outcome r = Ret ["Apple"; "apple"; "banana"; "Cherry"]
        /\ requested (trace r) = [subjects_url [1; 2; 3; 4]%Z].
Proof.
  split; [exact iter_Z_ok|].
  destruct (C8_batches_partition_the_identifiers service table_server
              iter_Z iter_str [1; 2; 1; 3; 4]%Z iter_Z_ok)
    as [_ [Hlen [_ [_ [Hcat [_ Hlookup]]]]]].
  split; [exact Hlen|]. split; [exact Hcat|].
  destruct (Hlookup 5 [] (vocab_table, 2)
              [[(subjects_url [1; 2; 3; 4]%Z, subjects_page)]]
              (vocab_table, 3)
              ["banana"; "Apple"; "apple"; "Cherry"; "banana"]
              (vocab_table_serves_the_batch [])
              ltac:(intros pages [<-|[]]; cbn; lia)
              eq_refl) as [Ho [Hreq _]].
  split; [exact Ho|exact Hreq].
Defined.

Lemma C4_example_in_insertion_order :
  set_iter_ok iter_str
  /\ dedup_sort iter_str (example_slugs ++ ["banana"])
     = ["Apple"; "apple"; "banana"; "Cherry"]
  /\ NoDup (dedup_sort iter_str (example_slugs ++ ["banana"])).
Proof.
  split; [exact iter_str_ok|]. split; [reflexivity|].
  exact (proj1 (C4_lookup_result_deduplicated_and_sorted iter_str
                  (example_slugs ++ ["banana"]) iter_str_ok)).
Defined.

(** C4, as stated, fails: the order of Apple and apple is the order in which
    the set happens to be iterated.  With the set iterated backwards the
    lookup returns apple before Apple. *)
Lemma C4_order_of_ties_not_fixed :
  ~ (forall iter : list string -> list string,
       set_iter_ok iter ->
       dedup_sort iter example_slugs = ["Apple"; "apple"; "banana"; "Cherry"]).
Proof.
  intros H. specialize (H iter_str_backwards iter_str_backwards_ok).
  vm_compute in H. discriminate H.
Qed.

Lemma C10_same_run_in_two_environments :
  Py.truthy "secret" = true
  /\ get_vocab service table_server clock iter_Z iter_str 10
       env_other_token 30 "secret" (vocab_table, 0)
     = get_vocab service table_server clock iter_Z iter_str 10
         env_empty 30 "secret" (vocab_table, 0).
Proof.
  split; [reflexivity|].
  exact (proj1 (C10_explicit_token_takes_precedence service table_server clock
                  iter_Z iter_str 10 env_other_token env_empty 30 "secret"
                  (vocab_table, 0) eq_refl)).
Defined.

Lemma C1_idle_against_down :
  exists e1 e2,
    outcome (run_get_vocab idle_table iter_str env_with_token "") = Raise e1
    /\ outcome (run_get_vocab down_table iter_str env_empty "secret") = Raise e2
    /\ e1 <> e2 /\ same_class e1 e2 = false.
Proof.
  destruct (C1_failure_conditions_told_apart service table_server clock
              iter_Z iter_str 10 10 env_with_token env_empty 30 30
              "" "secret" "secret" "secret" (idle_table, 0) (down_table, 0)
              NoActivity EndpointDown eq_refl eq_refl eq_refl eq_refl
              eq_refl (ex_intro _ "Service Unavailable" eq_refl)
              ltac:(discriminate))
    as [e1 [e2 [Ho1 [Ho2 [_ [_ [Hdiff Hcls]]]]]]].
  exists e1, e2. split; [exact Ho1|]. split; [exact Ho2|].
  split; [exact Hdiff|].
  destruct (same_class e1 e2); [|reflexivity].
  destruct (proj1 Hcls eq_refl) as [_ Hc]. now destruct Hc.
Defined.

(** C1, as stated, fails: the run without activity and the run without
    vocabulary end in exceptions of one and the same class. *)
Lemma C1_two_conditions_share_a_class :
  exists e1 e2,
    condition_holds service table_server clock iter_Z iter_str
      10 30 "secret" (idle_table, 0) NoActivity
    /\ condition_holds service table_server clock iter_Z iter_str
         10 30 "secret" (radical_table, 0) NoVocabulary
    /\ outcome (run_get_vocab idle_table iter_str env_with_token "") = Raise e1
    /\ outcome (run_get_vocab radical_table iter_str env_with_token "")
       = Raise e2
    /\ class_of e1 = class_of e2.
Proof.
  exists (PlainException "No recent reviews found"),
         (PlainException "No vocabulary among those reviews").
  split; [reflexivity|].
  split; [exists [101%Z]; repeat split; discriminate|].
  repeat split.
Qed.

(** *** The further statements *)

Lemma second_page_down_follows (h : headers) :
  follows service table_server h (second_page_down_table, 0)
    (Some assignments_url)
    [(assignments_url, mk_payload [assignment 1] (Some page2_url))]
    (second_page_down_table, 1) (Some page2_url).
Proof.
  eapply follows_page; try reflexivity. apply follows_nil.
Defined.

Lemma server_error_on_second_page :
  fetch_all service table_server 5 assignments_url []
    (second_page_down_table, 0)
  = mk_run (Raise (ReviewEndpointDown "Service Unavailable"))
      [EvGet assignments_url []; EvYield (assignment 1); EvGet page2_url []]
      (second_page_down_table, 2).
Proof.
  exact (server_error_ends_fetch service table_server [] assignments_url
           page2_url _ (second_page_down_table, 0) (second_page_down_table, 1)
           (second_page_down_table, 2)
           (mk_response 503 "Service Unavailable" None) 5
           (second_page_down_follows []) eq_refl eq_refl
           ltac:(cbn; lia) ltac:(cbn; lia)).
Defined.

Lemma client_error_on_first_page :
  fetch_all service table_server 5 assignments_url [] (unauthorized_table, 0)
  = mk_run (Raise (HTTPError 401)) [EvGet assignments_url []]
      (unauthorized_table, 1).
Proof.
  exact (client_error_ends_fetch service table_server [] assignments_url
           assignments_url [] (unauthorized_table, 0) (unauthorized_table, 0)
           (unauthorized_table, 1) (mk_response 401 "Unauthorized" None) 5
           (follows_nil _ _ _ _ _) eq_refl eq_refl
           ltac:(cbn; lia) ltac:(cbn; lia)).
Defined.

Lemma garbled_first_page :
  fetch_all service table_server 5 assignments_url [] (garbled_table, 0)
  = mk_run (Raise JSONDecodeError) [EvGet assignments_url []]
      (garbled_table, 1).
Proof.
  exact (undecodable_body_ends_fetch service table_server [] assignments_url
           assignments_url [] (garbled_table, 0) (garbled_table, 0)
           (garbled_table, 1) (mk_response 200 "<html>" None) 5
           (follows_nil _ _ _ _ _) eq_refl eq_refl
           ltac:(cbn; lia) eq_refl ltac:(cbn; lia)).
Defined.

Lemma record_without_identifier :
  recent_subject_ids_via_assignments service table_server 5 since []
    (missing_id_table, 0)
  = mk_run (Raise (KeyError "subject_id"))
      [EvGet assignments_url []; EvYield (assignment 1);
       EvYield (mk_item (Some "assignment") None None)]
      (missing_id_table, 1).
Proof.
  exact (body_failure_ends_fetch service table_server add_subject_id []
           assignments_url assignments_url [] (missing_id_table, 0)
           (missing_id_table, 0) (missing_id_table, 1)
           (mk_response 200 ""
              (Some (mk_payload
                       [assignment 1; mk_item (Some "assignment") None None;
                        assignment 3] (Some page2_url))))
           _ [assignment 1] [assignment 3]
           (mk_item (Some "assignment") None None) [] [] [1%Z]
           (KeyError "subject_id") 5
           (follows_nil _ _ _ _ _) eq_refl eq_refl ltac:(cbn; lia) eq_refl
           eq_refl eq_refl eq_refl eq_refl ltac:(cbn; lia)).
Defined.

Lemma cycle_table_loops :
  outcome (fetch_all service table_server 7 assignments_url [] (cycle_table, 0))
  = Diverge
  /\ requested (trace (fetch_all service table_server 7 assignments_url []
                         (cycle_table, 0)))
     = repeat assignments_url 7.
Proof.
  apply (cursor_cycle_never_ends service table_server [] assignments_url
           (mk_response 200 "" (Some (mk_payload [] (Some assignments_url))))
           (mk_payload [] (Some assignments_url))
           (fun w => fst w = cycle_table) 7 (cycle_table, 0)).
  - intros [t n] Ht. simpl in Ht. subst t.
    exists (cycle_table, S n). split; reflexivity.
  - reflexivity.
  - reflexivity.
  - cbn; lia.
  - reflexivity.
  - reflexivity.
  - reflexivity.
Defined.

Lemma third_batch_of_five :
  nth_error (chunked [1; 2; 3; 4; 5]%Z 2) 2 = Some [5%Z]
  /\ List.length [5%Z] = Nat.min 2 (5 - 2 * 2).
Proof.
  exact (chunked_batches_are_slices [1; 2; 3; 4; 5]%Z 2 2
           ltac:(lia) ltac:(cbn; lia)).
Defined.

Lemma lookup_of_nothing_on_table :
  gather_vocab_subjects service table_server iter_Z iter_str 5 [] []
    (vocab_table, 0)
  = mk_run (Ret []) [] (vocab_table, 0).
Proof.
  exact (lookup_of_nothing service table_server iter_Z iter_str 5 []
           (vocab_table, 0) iter_Z_ok iter_str_ok).
Defined.

Lemma first_batch_served (h : headers) :
  serves_batches service table_server h (second_batch_down_table, 0)
    [firstn 1000 many_ids]
    [[(subjects_url (firstn 1000 many_ids),
       mk_payload [subject "vocabulary" "first"] None)]]
    (second_batch_down_table, 1).
Proof.
  eapply serves_batches_cons; [|apply serves_batches_nil].
  exists None. split; [|reflexivity].
  eapply follows_page; [vm_compute; reflexivity | vm_compute; reflexivity
                       | cbn; lia | reflexivity | apply follows_nil].
Defined.

Lemma second_batch_fails_the_lookup :
  let r := gather_vocab_subjects service table_server iter_Z iter_str 5
             many_ids [] (second_batch_down_table, 0) in
  outcome r = Raise (ReviewEndpointDown "Service Unavailable")
  /\ requested (trace r)
     = [subjects_url (firstn 1000 many_ids); subjects_url [1001%Z]].
Proof.
  pose proof (failing_batch_fails_lookup service table_server iter_Z iter_str
                5 many_ids [] (second_batch_down_table, 0)
                (second_batch_down_table, 1)
                [firstn 1000 many_ids] [] [1001%Z]
                [[(subjects_url (firstn 1000 many_ids),
                   mk_payload [subject "vocabulary" "first"] None)]]
                ["first"] (ReviewEndpointDown "Service Unavailable")) as H.
  cbv zeta in H. intros r. subst r. rewrite H.
  - split; [reflexivity|]. vm_compute. reflexivity.
  - vm_compute. reflexivity.
  - apply first_batch_served.
  - intros pages [<-|[]]. cbn. lia.
  - reflexivity.
  - vm_compute. reflexivity.
Defined.

Lemma lookup_on_vocab_table :
  exists result,
    outcome (gather_vocab_subjects service table_server iter_Z iter_str 5
               [1; 2; 1; 3; 4]%Z [] (vocab_table, 2)) = Ret result
    /\ forall s,
         In s result
         <-> exists it,
               In it (page_data subjects_page)
               /\ item_object it = Some "vocabulary" /\ item_slug it = Some s.
Proof.
  destruct (lookup_collects_vocabulary_slugs service table_server iter_Z
              iter_str 5 [1; 2; 1; 3; 4]%Z [] (vocab_table, 2) (vocab_table, 3)
              [[(subjects_url [1; 2; 3; 4]%Z, subjects_page)]]
              iter_str_ok (vocab_table_serves_the_batch [])
              ltac:(intros pages [<-|[]]; cbn; lia)
              ltac:(repeat constructor; eexists; (split; [reflexivity|]);
                    intros _; try (eexists; reflexivity)))
    as [result [Ho Hin]].
  exists result. split; [exact Ho|].
  intros s. rewrite (Hin s). simpl. reflexivity.
Defined.

Lemma resolver_on_vocab_table :
  recent_subject_ids_via_assignments service table_server 5 since []
    (vocab_table, 0)
  = mk_run (Ret [1; 2; 1; 3; 4]%Z)
      (flat_map (page_events []) two_pages) (vocab_table, 2).
Proof.
  exact (resolver_collects_subject_ids service table_server 5 since []
           (vocab_table, 0) (vocab_table, 2) two_pages
           (vocab_table_serves_two_pages []) ltac:(cbn; lia)
           ltac:(repeat constructor; eexists; reflexivity)).
Defined.

Lemma reviews_table_serves (h : headers) :
  serves service table_server h (reviews_table, 0)
    (Some (WK_API_URL ++ "/reviews?updated_after=" ++ since)%string)
    [((WK_API_URL ++ "/reviews?updated_after=" ++ since)%string,
      mk_payload [assignment 7; assignment 7; assignment 9] None)]
    (reviews_table, 1).
Proof.
  exists None. split; [|reflexivity].
  eapply follows_page; try reflexivity. apply follows_nil.
Defined.

Lemma reviews_resolver_on_table :
  recent_subject_ids_via_reviews service table_server 5 since []
    (reviews_table, 0)
  = mk_run (Ret [7; 7; 9]%Z)
      [EvGet (WK_API_URL ++ "/reviews?updated_after=" ++ since)%string [];
       EvYield (assignment 7); EvYield (assignment 7); EvYield (assignment 9)]
      (reviews_table, 1).
Proof.
  exact (reviews_resolver_collects_subject_ids service table_server 5 since []
           (reviews_table, 0) (reviews_table, 1) _
           (reviews_table_serves []) ltac:(cbn; lia)
           ltac:(repeat constructor; eexists; reflexivity)).
Defined.

Lemma down_run_is_announced :
  run_get_vocab down_table iter_str env_with_token ""
  = mk_run (Raise (ReviewEndpointDown "Service Unavailable"))
      [EvGet assignments_url (bearer "secret");
       EvStderr "Reviews endpoint down"]
      (down_table, 1).
Proof.
  exact (endpoint_down_is_announced service table_server clock iter_Z iter_str
           10 env_with_token 30 "" "secret" (down_table, 0)
           "Service Unavailable" eq_refl eq_refl eq_refl).
Defined.

Lemma get_vocab_on_vocab_table :
  outcome (run_get_vocab vocab_table iter_str env_with_token "")
  = Ret ["Apple"; "apple"; "banana"; "Cherry"]
  /\ stderr_of (trace (run_get_vocab vocab_table iter_str env_with_token ""))
     = []
  /\ requested (trace (run_get_vocab vocab_table iter_str env_with_token ""))
     = [assignments_url; page2_url; subjects_url [1; 2; 3; 4]%Z].
Proof.
  unfold run_get_vocab.
  rewrite (get_vocab_succeeds service table_server clock iter_Z iter_str
             10 env_with_token 30 "" "secret" (vocab_table, 0) (vocab_table, 2)
             (vocab_table, 3) two_pages
             [[(subjects_url [1; 2; 3; 4]%Z, subjects_page)]]
             iter_str_ok eq_refl eq_refl
             (vocab_table_serves_two_pages _) ltac:(cbn; lia)
             ltac:(repeat constructor; eexists; reflexivity)
             ltac:(discriminate)
             (vocab_table_serves_the_batch _)
             ltac:(intros pages [<-|[]]; cbn; lia)
             ltac:(repeat constructor; eexists; (split; [reflexivity|]);
                   intros _; try (eexists; reflexivity))
             ltac:(discriminate)).
  repeat split.
Defined.

Lemma returned_vocabulary_is_not_empty :
  outcome (run_get_vocab vocab_table iter_str env_with_token "")
  = Ret ["Apple"; "apple"; "banana"; "Cherry"]
  /\ ["Apple"; "apple"; "banana"; "Cherry"] <> [].
Proof.
  split; [reflexivity|].
  exact (proj1 (get_vocab_never_returns_nothing service table_server clock
                  iter_Z iter_str 10 env_with_token 30 "" (vocab_table, 0)
                  _ eq_refl)).
Defined.

Lemma idle_run_makes_one_request :
  run_get_vocab idle_table iter_str env_with_token ""
  = mk_run (Raise (PlainException "No recent reviews found"))
      [EvGet assignments_url (bearer "secret");
       EvStderr "No recent reviews found"]
      (idle_table, 1).
Proof.
  exact (no_activity_skips_lookup service table_server clock iter_Z iter_str
           10 env_with_token 30 "" "secret" (idle_table, 0)
           eq_refl eq_refl eq_refl).
Defined.

Lemma rejected_credential :
  run_get_vocab unauthorized_table iter_str env_with_token ""
  = mk_run (Raise (HTTPError 401))
      [EvGet assignments_url (bearer "secret")] (unauthorized_table, 1).
Proof.
  exact (resolver_failure_passes_through service table_server clock iter_Z
           iter_str 10 env_with_token 30 "" "secret" (unauthorized_table, 0)
           (HTTPError 401) eq_refl eq_refl eq_refl ltac:(discriminate)).
Defined.

Lemma subjects_endpoint_down :
  run_get_vocab subjects_down_table iter_str env_with_token ""
  = mk_run (Raise (ReviewEndpointDown "Service Unavailable"))
      [EvGet assignments_url (bearer "secret"); EvYield (assignment 101);
       EvGet (subjects_url [101%Z]) (bearer "secret")]
      (subjects_down_table, 2).
Proof.
  exact (lookup_failure_passes_through service table_server clock iter_Z
           iter_str 10 env_with_token 30 "" "secret" (subjects_down_table, 0)
           [101%Z] (ReviewEndpointDown "Service Unavailable")
           eq_refl eq_refl eq_refl ltac:(discriminate) eq_refl).
Defined.

End OnScenarios.

End WanikaniFacts.

(* ================================================================== *)
(** * Facts about main.py *)
(* ================================================================== *)

Module MainFacts.

Import Py Wanikani Main.

(** ** Start-up *)

Section Startup.
Variable W : Type.
Variable requests_get : W -> string -> headers -> get_result * W.
Variable iso_now_minus : Z -> string.
Variable int_set_iter : list Z -> list Z.
Variable str_set_iter : list string -> list string.

Local Notation "'vocab_of'" :=
  (get_vocab W requests_get iso_now_minus int_set_iter str_set_iter).
Local Notation "'start'" :=
  (startup W requests_get iso_now_minus int_set_iter str_set_iter).

(** C5 (as the program has it).  When the call of [get_vocab] at start-up
    fails, there are two cases.  If the environment holds a non-empty
    credential, the exception derives from [Exception], the caller catches
    it, and the script goes on with an empty vocabulary and an empty input
    text.  If it holds none, the exception is [SystemExit(1)], which the
    caller's [except Exception] does not catch: it leaves the script. *)
Theorem C5_failures_at_startup
    (fuel : nat) (env : environ) (w : W) (e : exn) :
  outcome (vocab_of fuel env 1440 "" w) = Raise e ->
  (truthy_opt (env token_var) = true
   /\ is_Exception (class_of e) = true
   /\ start fuel env w = Continues [] "")
  \/ (truthy_opt (env token_var) = false
      /\ e = SystemExit 1
      /\ start fuel env w = Aborted (SystemExit 1)).
Proof.
  intros H.
  destruct (WanikaniFacts.get_vocab_raises W requests_get iso_now_minus
              int_set_iter str_set_iter fuel env 1440 "" w e H)
    as [[Htok He]|[Htok He]]; [left|right];
    (split; [exact Htok|]); (split; [exact He|]);
    unfold startup; rewrite H.
  - now rewrite He.
  - subst e. reflexivity.
Qed.

(** An empty pre-populated input means that the call failed: [get_vocab]
    never returns the empty list, so the start-up code goes on with an empty
    vocabulary only after it caught an exception, and the input text is
    empty then. *)
Theorem empty_input_means_failure
    (fuel : nat) (env : environ) (w : W) (text : string) :
  start fuel env w = Continues [] text ->
  text = ""
  /\ exists e,
       outcome (vocab_of fuel env 1440 "" w) = Raise e
       /\ is_Exception (class_of e) = true.
Proof.
  unfold startup.
  destruct (outcome (vocab_of fuel env 1440 "" w)) as [vocab|e|] eqn:E.
  - intros H. injection H as Hv _.
    destruct (WanikaniFacts.get_vocab_returns_some W requests_get
                iso_now_minus int_set_iter str_set_iter fuel env 1440 "" w
                vocab E Hv).
  - destruct (is_Exception (class_of e)) eqn:He; [|discriminate].
    intros H. injection H as <-. split; [reflexivity|]. now exists e.
  - discriminate.
Qed.

End Startup.

(** ** Strings *)

Lemma append_nil_r (s : string) : (s ++ "")%string = s.
Proof. induction s as [|c s IH]; simpl; congruence. Qed.

Lemma append_assoc (a b c : string) :
  ((a ++ b) ++ c)%string = (a ++ (b ++ c))%string.
Proof. induction a as [|x a IH]; simpl; congruence. Qed.

Lemma cat_app (l1 l2 : list string) :
  cat (l1 ++ l2) = (cat l1 ++ cat l2)%string.
Proof.
  induction l1 as [|t l1 IH]; simpl; [reflexivity|].
  fold (cat (l1 ++ l2)). fold (cat l1). now rewrite IH, append_assoc.
Qed.

(** ** The nested loops *)

Lemma for_each_app {A : Type} (body : state -> A -> state * list ui_event) :
  forall l1 l2 st,
    for_each body st (l1 ++ l2)
    = (fst (for_each body (fst (for_each body st l1)) l2),
       snd (for_each body st l1)
       ++ snd (for_each body (fst (for_each body st l1)) l2)).
Proof.
  induction l1 as [|x l1 IH]; intros l2 st; simpl.
  - now destruct (for_each body st l2).
  - destruct (body st x) as [st1 evs1]. rewrite IH.
    destruct (for_each body st1 l1) as [st2 evs2]. simpl.
    destruct (for_each body st2 l2) as [st3 evs3]. simpl.
    now rewrite app_assoc.
Qed.

Lemma for_each_flat_map {A B : Type}
    (outer : state -> A -> state * list ui_event)
    (inner : state -> B -> state * list ui_event) (f : A -> list B) :
  (forall st x, outer st x = for_each inner st (f x)) ->
  forall l st, for_each outer st l = for_each inner st (flat_map f l).
Proof.
  intros Hbody. induction l as [|x l IH]; intros st; simpl; [reflexivity|].
  rewrite for_each_app, Hbody.
  destruct (for_each inner st (f x)) as [st1 evs1]. simpl.
  rewrite IH. now destruct (for_each inner st1 (flat_map f l)).
Qed.

Lemma process_candidate_parts (st : state) (c : candidate) :
  process_candidate st c = for_each process_part st (parts_of_candidate c).
Proof.
  unfold process_candidate, parts_of_candidate.
  destruct (cand_content c) as [[[ps|]]|]; reflexivity.
Qed.

Lemma process_chunk_parts (st : state) (c : chunk) :
  process_chunk st c = for_each process_part st (parts_of_chunk c).
Proof.
  unfold process_chunk, parts_of_chunk.
  destruct (chunk_candidates c) as [cands|]; [|reflexivity].
  apply for_each_flat_map. exact process_candidate_parts.
Qed.

Lemma gen_chunks_fragments (stream : list chunk) :
  gen_chunks stream = run_fragments (fragments stream).
Proof.
  unfold gen_chunks, run_fragments, fragments.
  now rewrite (for_each_flat_map process_chunk process_part parts_of_chunk
                 process_chunk_parts).
Qed.

Lemma for_each_cons {A : Type} (body : state -> A -> state * list ui_event)
    (x : A) (l : list A) (st : state) :
  for_each body st (x :: l)
  = (fst (for_each body (fst (body st x)) l),
     snd (body st x) ++ snd (for_each body (fst (body st x)) l)).
Proof.
  simpl. destruct (body st x) as [st1 evs1]. simpl.
  now destruct (for_each body st1 l).
Qed.

(** ** One fragment *)

Lemma process_part_no_text (st : state) (p : part) :
  no_text p = true -> process_part st p = (st, []).
Proof.
  unfold no_text, text_of, process_part.
  destruct (part_text p) as [t|]; [|reflexivity].
  now intros ->.
Qed.

Lemma process_part_thinking (st : state) (p : part) :
  is_thinking p = true ->
  process_part st p
  = (mk_state (answer st) (thoughts st ++ text_of p)%string
              (thoughts_folded st) (thought_box st),
     [Markdown (thought_box st) (thoughts st ++ text_of p)%string]).
Proof.
  unfold is_thinking, no_text, text_of, process_part.
  destruct (part_text p) as [t|]; [|discriminate].
  rewrite negb_involutive. intros H. apply andb_true_iff in H.
  destruct H as [Ht Hth]. now rewrite Ht, Hth.
Qed.

Lemma process_part_answer (st : state) (p : part) :
  is_answer p = true ->
  process_part st p
  = (mk_state (answer (fst (finish_thinking st)) ++ text_of p)%string
              (thoughts st) true (thought_box (fst (finish_thinking st))),
     snd (finish_thinking st) ++ [Yield (text_of p)]).
Proof.
  unfold is_answer, no_text, text_of, process_part.
  destruct (part_text p) as [t|]; [|discriminate].
  rewrite negb_involutive. intros H. apply andb_true_iff in H.
  destruct H as [Ht Hth]. apply negb_true_iff in Hth. rewrite Ht, Hth. simpl.
  unfold finish_thinking. now destruct (thoughts_folded st).
Qed.

(** A fragment is of one of three kinds. *)
Lemma part_kind (p : part) :
  (no_text p = true /\ is_thinking p = false /\ is_answer p = false)
  \/ (no_text p = false /\ is_thinking p = true /\ is_answer p = false)
  \/ (no_text p = false /\ is_thinking p = false /\ is_answer p = true).
Proof.
  unfold is_thinking, is_answer.
  destruct (no_text p), (is_thought p); simpl; auto.
Qed.

(** ** Events *)

Lemma yields_app (e1 e2 : list ui_event) :
  yields (e1 ++ e2) = yields e1 ++ yields e2.
Proof.
  induction e1 as [|[b t|b| |t|t] e1 IH]; simpl; auto. now rewrite IH.
Qed.

Lemma fold_count_app (e1 e2 : list ui_event) :
  fold_count (e1 ++ e2) = fold_count e1 + fold_count e2.
Proof.
  induction e1 as [|[b t|b| |t|t] e1 IH]; simpl; auto.
Qed.

Lemma yields_Markdown (box : widget) (l : list string) :
  yields (map (Markdown box) l) = [].
Proof. induction l; simpl; auto. Qed.

Lemma fold_count_Markdown (box : widget) (l : list string) :
  fold_count (map (Markdown box) l) = 0.
Proof. induction l; simpl; auto. Qed.

(** ** A run of fragments *)

(** What a run of fragments adds up to, from any state. *)
Lemma run_summary :
  forall ps st,
    let r := for_each process_part st ps in
    answer (fst r) = (answer st ++ cat (answer_texts ps))%string
    /\ thoughts (fst r) = (thoughts st ++ cat (thought_texts ps))%string
    /\ thoughts_folded (fst r) = thoughts_folded st || existsb is_answer ps
    /\ yields (snd r) = answer_texts ps
    /\ fold_count (snd r)
       = if thoughts_folded st then 0
         else if existsb is_answer ps then 1 else 0.
Proof.
  induction ps as [|p ps IH]; intros st r; subst r.
  - simpl. rewrite !append_nil_r, orb_false_r.
    repeat split. now destruct (thoughts_folded st).
  - rewrite for_each_cons. cbn [fst snd].
    unfold answer_texts, thought_texts. cbn [filter existsb].
    destruct (IH (fst (process_part st p))) as [Ha [Ht [Hf [Hy Hc]]]].
    rewrite Ha, Ht, Hf, yields_app, fold_count_app, Hy, Hc.
    destruct (part_kind p) as [[Hn [Hth Han]]|[[Hn [Hth Han]]|[Hn [Hth Han]]]];
      rewrite Hth, Han.
    + rewrite (process_part_no_text st p Hn). simpl. repeat split.
    + rewrite (process_part_thinking st p Hth). cbn [fst snd map cat fold_right
        answer thoughts thoughts_folded yields fold_count app orb].
      rewrite append_assoc. repeat split.
    + rewrite (process_part_answer st p Han). unfold finish_thinking.
      destruct (thoughts_folded st); cbn [negb fst snd map cat fold_right
        answer thoughts thoughts_folded yields fold_count app orb Nat.add];
        rewrite append_assoc, ?orb_true_r; repeat split.
Qed.

(** A run without any answer fragment only writes the growing thoughts into
    the widget it started with. *)
Lemma thinking_only :
  forall ps st,
    existsb is_answer ps = false ->
    for_each process_part st ps
    = (mk_state (answer st) (thoughts st ++ cat (thought_texts ps))%string
                (thoughts_folded st) (thought_box st),
       map (Markdown (thought_box st))
           (buffer_values (thoughts st) (thought_texts ps))).
Proof.
  induction ps as [|p ps IH]; intros st Hno.
  - simpl. rewrite append_nil_r. now destruct st.
  - cbn [existsb] in Hno. apply orb_false_iff in Hno. destruct Hno as [Hp Hps].
    rewrite for_each_cons. unfold thought_texts. cbn [filter].
    destruct (part_kind p) as [[Hn [Hth Han]]|[[Hn [Hth Han]]|[Hn [Hth Han]]]];
      try congruence; rewrite Hth.
    + rewrite (process_part_no_text st p Hn). cbn [fst snd app].
      now rewrite (IH st Hps).
    + rewrite (process_part_thinking st p Hth). cbn [fst snd].
      rewrite (IH _ Hps). cbn [answer thoughts thoughts_folded thought_box
        map cat fold_right buffer_values app fst snd].
      now rewrite append_assoc.
Qed.

Lemma no_text_empty (p : part) : no_text p = true -> text_of p = "".
Proof.
  unfold no_text, truthy. rewrite negb_involutive.
  apply String.eqb_eq.
Qed.

(** Fragments without text add nothing to a concatenation. *)
Lemma cat_answer_texts (ps : list part) :
  cat (answer_texts ps) = cat (map text_of (filter not_thought ps)).
Proof.
  unfold answer_texts, is_answer, not_thought.
  induction ps as [|p ps IH]; [reflexivity|]. cbn [filter].
  destruct (is_thought p); cbn [negb andb].
  - rewrite andb_false_r. exact IH.
  - rewrite andb_true_r.
    destruct (no_text p) eqn:Hn; cbn [negb map cat fold_right].
    + rewrite (no_text_empty p Hn). exact IH.
    + f_equal. exact IH.
Qed.

(** The events around the answer fragment [p] of a run. *)
Lemma run_around (before after : list part) (p : part) :
  is_answer p = true ->
  let r0 := for_each process_part initial before in
  exists st2,
    for_each process_part initial (before ++ p :: after)
    = (fst (for_each process_part st2 after),
       snd r0 ++ snd (finish_thinking (fst r0))
       ++ Yield (text_of p) :: snd (for_each process_part st2 after))
    /\ thoughts_folded st2 = true.
Proof.
  intros Hp r0. subst r0.
  rewrite for_each_app, for_each_cons, (process_part_answer _ p Hp).
  cbn [fst snd]. eexists. split.
  - rewrite <- !app_assoc. reflexivity.
  - reflexivity.
Qed.

(** C3 (as the program has it).  The body of [finish_thinking] runs once if
    the stream holds a fragment with text that is not flagged as a thought,
    and never otherwise.  It runs when the first such fragment arrives: up to
    then the growing thoughts were written into the placeholder, then the
    placeholder is emptied, the expander is made and filled with the thoughts
    so far, and the fragment's text is handed out; nothing after that makes
    another expander.  The thoughts buffer ends up holding the texts of all
    thought fragments, those after the fold included. *)
Theorem C3_thoughts_fold_once (stream : list chunk) :
  let ps := fragments stream in
  let r := gen_chunks stream in
  fold_count (snd r) = (if existsb is_answer ps then 1 else 0)
  /\ thoughts (fst r) = cat (thought_texts ps)
  /\ (forall before p after,
        ps = before ++ p :: after ->
        existsb is_answer before = false ->
        is_answer p = true ->
        exists rest,
          snd r
          = map (Markdown Placeholder)
                (buffer_values "" (thought_texts before))
            ++ [Empty Placeholder; NewExpander;
                Markdown Expander (cat (thought_texts before));
                Yield (text_of p)]
            ++ rest
          /\ fold_count rest = 0).
Proof.
  intros ps r. subst r. rewrite gen_chunks_fragments. fold ps.
  unfold run_fragments.
  destruct (run_summary ps initial) as [_ [Ht [_ [_ Hc]]]].
  destruct (for_each process_part initial ps) as [st evs] eqn:Erun.
  cbn [fst snd] in *.
  split; [rewrite fold_count_app, Hc; simpl; lia|].
  split; [exact Ht|].
  intros before p after Hps Hbefore Hp.
  destruct (run_around before after p Hp) as [st2 [Hrun Hfolded]].
  rewrite <- Hps, Erun in Hrun.
  rewrite (thinking_only before initial Hbefore) in Hrun.
  injection Hrun as Hst Hevs.
  exists (snd (for_each process_part st2 after) ++ [Print (answer st)]).
  split.
  - rewrite Hevs. cbn [fst snd finish_thinking initial thoughts_folded negb
      thought_box thoughts answer String.append app].
    rewrite <- !app_assoc. reflexivity.
  - rewrite fold_count_app.
    destruct (run_summary after st2) as [_ [_ [_ [_ Hc2]]]].
    rewrite Hc2, Hfolded. reflexivity.
Qed.

(** C7 (as the program has it).  The texts handed out are the texts of the
    fragments that carry text and are not thoughts, one increment each, in
    arrival order.  Joined, they are the answer buffer, which is also the
    concatenation of the texts of all fragments that are not thoughts.  The
    increment for such a fragment comes right after what the earlier
    fragments caused (and after the fold, when [finish_thinking] still has to
    run), before anything a later fragment causes. *)
Theorem C7_answer_increments (stream : list chunk) :
  let ps := fragments stream in
  let r := gen_chunks stream in
  yields (snd r) = answer_texts ps
  /\ cat (yields (snd r)) = answer (fst r)
  /\ answer (fst r) = cat (map text_of (filter not_thought ps))
  /\ (forall before p after,
        ps = before ++ p :: after ->
        is_answer p = true ->
        let r0 := for_each process_part initial before in
        exists post,
          snd r = snd r0 ++ snd (finish_thinking (fst r0))
                  ++ Yield (text_of p) :: post
          /\ yields post = answer_texts after).
Proof.
  intros ps r. subst r. rewrite gen_chunks_fragments. fold ps.
  unfold run_fragments.
  destruct (run_summary ps initial) as [Ha [_ [_ [Hy _]]]].
  destruct (for_each process_part initial ps) as [st evs] eqn:Erun.
  cbn [fst snd] in *.
  assert (Hyields : yields (evs ++ [Print (answer st)]) = answer_texts ps)
    by (rewrite yields_app, Hy; simpl; apply app_nil_r).
  split; [exact Hyields|].
  split; [rewrite Hyields, Ha; reflexivity|].
  split; [rewrite Ha; simpl; apply cat_answer_texts|].
  intros before p after Hps Hp.
  destruct (run_around before after p Hp) as [st2 [Hrun _]].
  rewrite <- Hps, Erun in Hrun. injection Hrun as Hst Hevs.
  exists (snd (for_each process_part st2 after) ++ [Print (answer st)]).
  split.
  - rewrite Hevs. rewrite <- !app_assoc. reflexivity.
  - rewrite yields_app.
    destruct (run_summary after st2) as [_ [_ [_ [Hy2 _]]]].
    rewrite Hy2. simpl. apply app_nil_r.
Qed.

(** C9.  A fragment whose text is absent, [None] or empty leaves the
    variables of the generator and the widget as they are and causes no
    event: no update of the thoughts, no fold, no increment.  A stream with
    such a fragment runs like the stream without it, whether or not the
    fragment is flagged as a thought. *)
Theorem C9_fragments_without_text_are_skipped
    (st : state) (p : part) (before after : list part)
    (stream stream' : list chunk) :
  no_text p = true ->
  fragments stream = before ++ p :: after ->
  fragments stream' = before ++ after ->
  process_part st p = (st, [])
  /\ gen_chunks stream = gen_chunks stream'.
Proof.
  intros Hn Hs Hs'. split; [now apply process_part_no_text|].
  rewrite !gen_chunks_fragments, Hs, Hs'. unfold run_fragments.
  rewrite !for_each_app, for_each_cons, (process_part_no_text _ p Hn).
  reflexivity.
Qed.

(** ** More on the generator *)

(** Only the fragments count.  Two streams that deliver the same fragments
    in the same order make the generator do the same, however the fragments
    are spread over chunks and candidates: the texts of different
    candidates go into the same two buffers. *)
Theorem same_fragments_same_run (stream1 stream2 : list chunk) :
  fragments stream1 = fragments stream2 ->
  gen_chunks stream1 = gen_chunks stream2.
Proof. intros H. now rewrite !gen_chunks_fragments, H. Qed.

Lemma markdowns_on_app (box : widget) (e1 e2 : list ui_event) :
  markdowns_on box (e1 ++ e2) = markdowns_on box e1 ++ markdowns_on box e2.
Proof.
  induction e1 as [|[b t|b| |t|t] e1 IH]; simpl; auto.
  destruct (widget_eqb b box); simpl; now rewrite IH.
Qed.

Lemma markdowns_on_same (box : widget) (l : list string) :
  markdowns_on box (map (Markdown box) l) = l.
Proof.
  induction l as [|t l IH]; simpl; [reflexivity|].
  destruct box; simpl; now rewrite IH.
Qed.

Lemma markdowns_on_other (l : list string) :
  markdowns_on Expander (map (Markdown Placeholder) l) = [].
Proof. induction l; simpl; auto. Qed.

Lemma on_placeholder_app (e1 e2 : list ui_event) :
  existsb on_placeholder (e1 ++ e2)
  = existsb on_placeholder e1 || existsb on_placeholder e2.
Proof. apply existsb_app. Qed.

(** Once the thoughts are folded, the run writes the growing thoughts into
    the expander and leaves the placeholder alone. *)
Lemma folded_run :
  forall ps st,
    thoughts_folded st = true ->
    thought_box st = Expander ->
    let r := for_each process_part st ps in
    thought_box (fst r) = Expander
    /\ markdowns_on Expander (snd r)
       = buffer_values (thoughts st) (thought_texts ps)
    /\ existsb on_placeholder (snd r) = false.
Proof.
  induction ps as [|p ps IH]; intros st Hf Hb r; subst r.
  - simpl. auto.
  - rewrite for_each_cons. cbn [fst snd].
    unfold thought_texts. cbn [filter].
    rewrite markdowns_on_app, on_placeholder_app.
    destruct (part_kind p) as [[Hn [Hth Han]]|[[Hn [Hth Han]]|[Hn [Hth Han]]]];
      rewrite Hth.
    + rewrite (process_part_no_text st p Hn). cbn [fst snd].
      destruct (IH st Hf Hb) as [H1 [H2 H3]]. simpl. auto.
    + rewrite (process_part_thinking st p Hth). cbn [fst snd]. rewrite Hb.
      destruct (IH (mk_state (answer st) (thoughts st ++ text_of p)
                             (thoughts_folded st) Expander) Hf eq_refl)
        as [H1 [H2 H3]].
      cbn [thoughts] in H2.
      split; [exact H1|]. split; [|exact H3].
      cbn [markdowns_on widget_eqb map buffer_values app]. now rewrite H2.
    + rewrite (process_part_answer st p Han). unfold finish_thinking.
      rewrite Hf. cbn [negb fst snd thought_box]. rewrite Hb.
      destruct (IH (mk_state (answer st ++ text_of p) (thoughts st) true
                             Expander) eq_refl eq_refl)
        as [H1 [H2 H3]].
      cbn [thoughts] in H2.
      split; [exact H1|]. split; [|exact H3]. exact H2.
Qed.

(** A run with an answer fragment has a first one. *)
Lemma first_answer (ps : list part) :
  existsb is_answer ps = true ->
  exists before p after,
    ps = before ++ p :: after
    /\ existsb is_answer before = false /\ is_answer p = true.
Proof.
  induction ps as [|q ps IH]; [discriminate|].
  cbn [existsb]. destruct (is_answer q) eqn:Eq.
  - intros _. exists [], q, ps. auto.
  - simpl. intros H. destruct (IH H) as [before [p [after [Hps [Hb Hp]]]]].
    exists (q :: before), p, after. subst ps.
    split; [reflexivity|]. split; [simpl; now rewrite Eq|exact Hp].
Qed.

(** The run around the first answer fragment, with the state it leaves. *)
Lemma run_around_first (before after : list part) (p : part) :
  existsb is_answer before = false ->
  is_answer p = true ->
  let st2 := mk_state (text_of p) (cat (thought_texts before)) true Expander in
  for_each process_part initial (before ++ p :: after)
  = (fst (for_each process_part st2 after),
     map (Markdown Placeholder) (buffer_values "" (thought_texts before))
     ++ [Empty Placeholder; NewExpander;
         Markdown Expander (cat (thought_texts before));
         Yield (text_of p)]
     ++ snd (for_each process_part st2 after)).
Proof.
  intros Hbefore Hp st2. subst st2.
  rewrite for_each_app, (thinking_only before initial Hbefore).
  cbn [fst snd]. rewrite for_each_cons, (process_part_answer _ p Hp).
  reflexivity.
Qed.

Lemma no_placeholder_markdown (evs : list ui_event) :
  existsb on_placeholder evs = false -> markdowns_on Placeholder evs = [].
Proof.
  induction evs as [|[[|] t|[|]| |t|t] evs IH]; simpl; auto; discriminate.
Qed.

(** The updates of the thoughts are cumulative and move with the fold.  Up
    to the first answer fragment each thought fragment writes the whole
    buffer so far into the placeholder.  The fold writes the buffer into the
    expander, and each later thought fragment writes the whole buffer,
    earlier thoughts included, into the expander again. *)
Theorem thought_updates_are_cumulative
    (stream : list chunk) (before after : list part) (p : part) :
  fragments stream = before ++ p :: after ->
  existsb is_answer before = false ->
  is_answer p = true ->
  let evs := snd (gen_chunks stream) in
  markdowns_on Placeholder evs = buffer_values "" (thought_texts before)
  /\ markdowns_on Expander evs
     = cat (thought_texts before)
       :: buffer_values (cat (thought_texts before)) (thought_texts after).
Proof.
  intros Hps Hbefore Hp evs. subst evs.
  rewrite gen_chunks_fragments, Hps. unfold run_fragments.
  rewrite (run_around_first before after p Hbefore Hp).
  set (st2 := mk_state (text_of p) (cat (thought_texts before)) true Expander).
  destruct (folded_run after st2 eq_refl eq_refl) as [_ [Hexp Hnone]].
  cbn [snd]. rewrite !markdowns_on_app.
  rewrite markdowns_on_same, markdowns_on_other, Hexp.
  rewrite (no_placeholder_markdown _ Hnone).
  cbn [markdowns_on widget_eqb app thoughts st2].
  now rewrite !app_nil_r.
Qed.

Lemma after_empty_thinking (box : widget) (l : list string)
    (rest : list ui_event) :
  after_empty (map (Markdown box) l ++ rest) = after_empty rest.
Proof. induction l; simpl; auto. Qed.

(** The placeholder is not used after it was emptied, and the flag and the
    widget agree: at the end of a run the thoughts count as folded exactly
    if [thought_box] is the expander, and no event after the
    [thought_box.empty()] acts on the placeholder. *)
Theorem placeholder_unused_after_fold (stream : list chunk) :
  let r := gen_chunks stream in
  (thoughts_folded (fst r) = true <-> thought_box (fst r) = Expander)
  /\ existsb on_placeholder (after_empty (snd r)) = false.
Proof.
  intros r. subst r. rewrite gen_chunks_fragments. unfold run_fragments.
  destruct (existsb is_answer (fragments stream)) eqn:Eans.
  - destruct (first_answer _ Eans) as [before [p [after [Hps [Hb Hp]]]]].
    rewrite Hps, (run_around_first before after p Hb Hp).
    set (st2 := mk_state (text_of p) (cat (thought_texts before)) true Expander).
    destruct (folded_run after st2 eq_refl eq_refl) as [Hbox [_ Hnone]].
    destruct (run_summary after st2) as [_ [_ [Hf _]]].
    cbn [fst snd]. split.
    + rewrite Hbox, Hf. simpl. tauto.
    + rewrite <- app_assoc, after_empty_thinking. cbn [app after_empty].
      cbn [existsb on_placeholder orb].
      rewrite on_placeholder_app, Hnone. reflexivity.
  - rewrite (thinking_only _ initial Eans). cbn [fst snd]. split.
    + simpl. split; discriminate.
    + now rewrite after_empty_thinking.
Qed.

(** ** The statements on the scenarios *)

Section OnScenarios.
Import Scenarios.

Lemma C3_interleaved_stream :
  fragments interleaved
  = [thought "a"; thought "b"] ++ answer_part "X"
      :: [thought "c"; answer_part "Y"]
  /\ existsb is_answer [thought "a"; thought "b"] = false
  /\ is_answer (answer_part "X") = true
  /\ fold_count (snd (gen_chunks interleaved)) = 1
  /\ thoughts (fst (gen_chunks interleaved)) = "abc"
  /\ exists rest,
       snd (gen_chunks interleaved)
       = [Markdown Placeholder "a"; Markdown Placeholder "ab";
          Empty Placeholder; NewExpander; Markdown Expander "ab"; Yield "X"]
         ++ rest
       /\ fold_count rest = 0.
Proof.
  split; [reflexivity|]. split; [reflexivity|]. split; [reflexivity|].
  destruct (C3_thoughts_fold_once interleaved) as [Hc [Ht Hat]].
  split; [exact Hc|]. split; [exact Ht|].
  exact (Hat [thought "a"; thought "b"] (answer_part "X")
             [thought "c"; answer_part "Y"] eq_refl eq_refl eq_refl).
Defined.

(** C3, as stated, fails: a fragment that is not a thought arrives, and
    nothing is folded, because its text is empty. *)
Lemma C3_empty_answer_does_not_fold :
  ~ (forall stream : list chunk,
       existsb not_thought (fragments stream) = true ->
       fold_count (snd (gen_chunks stream)) = 1).
Proof.
  intros H. specialize (H empty_answer_only eq_refl).
  vm_compute in H. discriminate H.
Qed.

Lemma C7_interleaved_stream :
  fragments interleaved
  = [thought "a"; thought "b"; answer_part "X"; thought "c"]
      ++ answer_part "Y" :: []
  /\ is_answer (answer_part "Y") = true
  /\ yields (snd (gen_chunks interleaved)) = ["X"; "Y"]
  /\ answer (fst (gen_chunks interleaved)) = "XY"
  /\ exists post,
       snd (gen_chunks interleaved)
       = [Markdown Placeholder "a"; Markdown Placeholder "ab";
          Empty Placeholder; NewExpander; Markdown Expander "ab"; Yield "X";
          Markdown Expander "abc"]
         ++ [] ++ Yield "Y" :: post
       /\ yields post = [].
Proof.
  split; [reflexivity|]. split; [reflexivity|].
  destruct (C7_answer_increments interleaved) as [Hy [Hc [_ Hat]]].
  split; [exact Hy|]. split; [rewrite <- Hc, Hy; reflexivity|].
  exact (Hat [thought "a"; thought "b"; answer_part "X"; thought "c"]
             (answer_part "Y") [] eq_refl eq_refl).
Defined.

(** C7, as stated, fails: a fragment that is not a thought and has an empty
    text is not handed out as an increment. *)
Lemma C7_empty_answer_is_not_yielded :
  ~ (forall stream : list chunk,
       yields (snd (gen_chunks stream))
       = map text_of (filter not_thought (fragments stream))).
Proof.
  intros H. specialize (H empty_answer_only).
  vm_compute in H. discriminate H.
Qed.

Lemma C9_empty_answer_first :
  no_text (answer_part "") = true
  /\ process_part initial (answer_part "") = (initial, [])
  /\ gen_chunks [one_chunk [answer_part ""; thought "a"; answer_part "X"]]
     = gen_chunks [one_chunk [thought "a"; answer_part "X"]].
Proof.
  split; [reflexivity|].
  apply (C9_fragments_without_text_are_skipped initial (answer_part "")
           [] [thought "a"; answer_part "X"]
           [one_chunk [answer_part ""; thought "a"; answer_part "X"]]
           [one_chunk [thought "a"; answer_part "X"]]
           eq_refl eq_refl eq_refl).
Defined.

Lemma C5_endpoint_down_at_startup :
  outcome (get_vocab service table_server clock iter_Z iter_str 10
             env_with_token 1440 "" (down_table, 0))
  = Raise (ReviewEndpointDown "Service Unavailable")
  /\ startup service table_server clock iter_Z iter_str 10
       env_with_token (down_table, 0)
     = Continues [] "".
Proof.
  split; [reflexivity|].
  destruct (C5_failures_at_startup service table_server clock iter_Z iter_str
              10 env_with_token (down_table, 0)
              (ReviewEndpointDown "Service Unavailable") eq_refl)
    as [[_ [_ H]]|[_ [H _]]]; [exact H|discriminate H].
Defined.

(** C5, as stated, fails: without a credential the call fails and the
    start-up code does not go on with an empty list. *)
Lemma C5_missing_credential_ends_the_script :
  ~ (forall (env : environ) (w : service) (e : exn),
       outcome (get_vocab service table_server clock iter_Z iter_str 10
                  env 1440 "" w) = Raise e ->
       startup service table_server clock iter_Z iter_str 10 env w
       = Continues [] "").
Proof.
  intros H.
  specialize (H env_empty (vocab_table, 0) (SystemExit 1) eq_refl).
  vm_compute in H. discriminate H.
Qed.

(** *** The further statements *)

Lemma regrouped_runs_like_interleaved :
  gen_chunks regrouped = gen_chunks interleaved.
Proof.
  exact (same_fragments_same_run regrouped interleaved eq_refl).
Defined.

Lemma updates_of_interleaved :
  markdowns_on Placeholder (snd (gen_chunks interleaved)) = ["a"; "ab"]
  /\ markdowns_on Expander (snd (gen_chunks interleaved)) = ["ab"; "abc"].
Proof.
  exact (thought_updates_are_cumulative interleaved
           [thought "a"; thought "b"] [thought "c"; answer_part "Y"]
           (answer_part "X") eq_refl eq_refl eq_refl).
Defined.

Lemma empty_input_after_endpoint_down :
  startup service table_server clock iter_Z iter_str 10 env_with_token
    (down_table, 0) = Continues [] ""
  /\ exists e,
       outcome (get_vocab service table_server clock iter_Z iter_str 10
                  env_with_token 1440 "" (down_table, 0)) = Raise e
       /\ is_Exception (class_of e) = true.
Proof.
  split; [reflexivity|].
  exact (proj2 (empty_input_means_failure service table_server clock iter_Z
                  iter_str 10 env_with_token (down_table, 0) "" eq_refl)).
Defined.

End OnScenarios.

End MainFacts.

(* ================================================================== *)
(** * Facts about the command *)
(* ================================================================== *)

Module CliFacts.

Import Wanikani Cli.

(** [main] cannot get past its first use of the parsed arguments.  The
    parser stores the credential under the name [api_token], derived from
    [--api-token]; [main] reads [args.token], which no command line
    provides.  So for every command line the parser accepts, [main] ends
    with an AttributeError before it looks at the environment, calls
    [get_vocab] or writes anything. *)
Theorem main_stops_at_the_token_attribute
    (W : Type) (requests_get : W -> string -> headers -> get_result * W)
    (iso_now_minus : Z -> string)
    (int_set_iter : list Z -> list Z)
    (str_set_iter : list string -> list string)
    (splitext_ext : string -> string)
    (csv_text : list (list string) -> string) (arrow : string)
    (api_token : option string) (minutes : Z) (out : option string)
    (env : environ) (fuel : nat) (w : W) :
  main W requests_get iso_now_minus int_set_iter str_set_iter splitext_ext
    csv_text arrow api_token minutes out env fuel w
  = AttributeError W "token"
  /\ getattr (parsed api_token minutes out) "api_token"
     = Some (of_option api_token)
  /\ getattr (parsed api_token minutes out) "token" = None.
Proof. repeat split. Qed.

End CliFacts.
